(** * CXL socket transport: framing, tag catalog and packet encoders

    A shallow embedding of [hw/pci-bridge/cxl_socket_transport.c].
    Every C function of that file but [create_socket_client], which only
    sets the socket up, is a Rocq definition of the same name.
    Fixed-width integers are [Z] with the wrap-around written out, the
    socket and the clock are an explicit [world], and [assert] is an
    outcome of its own. *)

From Stdlib Require Import ZArith Lia Bool.
From stdpp Require Import base list.

Local Open Scope Z_scope.

(** ** Fixed-width integers *)

Module Int.

Definition wrap (bits x : Z) : Z := x mod 2 ^ bits.

Definition u8 (x : Z) : Z := wrap 8 x.
Definition u16 (x : Z) : Z := wrap 16 x.
Definition u32 (x : Z) : Z := wrap 32 x.
Definition u64 (x : Z) : Z := wrap 64 x.

(** [size_t] is 64 bits wide on the hosts QEMU builds for. *)
Definition size_t (x : Z) : Z := wrap 64 x.

(** qemu/bitops.h: [extract16 (value, start, length)]. *)
Definition extract16 (value start length : Z) : Z :=
  Z.land (Z.shiftr value start) (Z.ones length).

(** The [n] low bytes of [x], least significant first. *)
Fixpoint bytes_le (n : nat) (x : Z) : list Z :=
  match n with
  | O => []
  | S n' => Z.land x 255 :: bytes_le n' (Z.shiftr x 8)
  end.

Fixpoint of_bytes_le (l : list Z) : Z :=
  match l with
  | [] => 0
  | b :: l' => Z.lor b (Z.shiftl (of_bytes_le l') 8)
  end.

Definition bswap (n : nat) (x : Z) : Z := of_bytes_le (rev (bytes_le n x)).

End Int.

Import Int.

(** ** What the headers declare

    The packet structs, their enums and [htonll] are declared in
    [hw/cxl/cxl_socket_transport.h] and [hw/cxl/cxl_endian.h]; the
    transport only relies on their sizes, on the position of
    [payload_length] in a system header and of [data] in a completion,
    and on the byte order of the host.  These are the fields of
    [platform]. *)

Record platform := {
  host_big_endian : bool;
  sizeof_system_header_packet_t : Z;
  (** [((system_header_packet_t * ) buffer)->payload_length], read from
      the bytes of a received header *)
  payload_length_of : list Z -> Z;
  sizeof_sideband_connection_request_packet_t : Z;
  sizeof_base_sideband_packet_t : Z;
  sizeof_cxl_mem_m2s_req_packet_t : Z;
  (** size of the three headers that precede [data] in
      [cxl_mem_m2s_rwd_packet_t] *)
  sizeof_cxl_mem_m2s_rwd_headers : Z;
  sizeof_cxl_mem_s2m_ndr_packet_t : Z;
  sizeof_cxl_mem_s2m_drs_packet_t : Z;
  sizeof_cxl_io_mem_rd_packet_t : Z;
  sizeof_cxl_io_mem_wr_packet_32b_t : Z;
  sizeof_cxl_io_mem_wr_packet_64b_t : Z;
  sizeof_cxl_io_cfg_rd_packet_t : Z;
  sizeof_cxl_io_cfg_wr_packet_t : Z;
  sizeof_cxl_io_completion_packet_t : Z;
  sizeof_cxl_io_completion_data_packet_32b_t : Z;
  sizeof_cxl_io_completion_data_packet_64b_t : Z;
  (** [((cxl_io_completion_data_packet_32b_t * ) p)->data] and its
      64-bit sibling *)
  completion_data_32b_of : list Z -> Z;
  completion_data_64b_of : list Z -> Z
}.

(** [htons] and [htonll]: the identity on a big-endian host, a byte
    swap on a little-endian one. *)
Definition htons (P : platform) (x : Z) : Z :=
  if host_big_endian P then u16 x else bswap 2 x.

Definition htonll (P : platform) (x : Z) : Z :=
  if host_big_endian P then u64 x else bswap 8 x.

(** The bytes an [n]-byte integer field occupies in memory, lowest
    address first. *)
Definition field_bytes (P : platform) (n : nat) (v : Z) : list Z :=
  if host_big_endian P then rev (bytes_le n v) else bytes_le n v.

(** ** Constants of the translation unit *)

Definition MAX_TAG : Z := 512.
Definition MAX_PAYLOAD_SIZE : Z := 512.
Definition MAX_DURATION : Z := 5.

(** Modelled from the spec: [CXL_MEM_ACCESS_UNIT] is a macro of the
    missing header; the wire format fixes the CXL.mem access unit at 64
    bytes. *)
Definition CXL_MEM_ACCESS_UNIT : Z := 64.

(** Modelled from the spec: [cxl_mem_m2s_rwd_packet_t] is declared in
    the missing header; a write request is the headers followed by a data
    payload of exactly one CXL.mem access unit. *)
Definition sizeof_cxl_mem_m2s_rwd_packet_t (P : platform) : Z :=
  sizeof_cxl_mem_m2s_rwd_headers P + CXL_MEM_ACCESS_UNIT.

Definition EXTRACT_UPPER_2 (length : Z) : Z := extract16 length 8 2.
Definition EXTRACT_LOWER_8 (length : Z) : Z := extract16 length 0 8.
Definition EXTRACT_UPPER_56 (address : Z) : Z :=
  Z.land (Z.shiftr address 2) (Z.ones 56).
Definition EXTRACT_LOWER_6 (address : Z) : Z :=
  Z.land (Z.shiftr address 58) (Z.ones 6).
Definition EXTRACT_EXTENSION_4 (reg : Z) : Z := extract16 reg 6 4.

(** ** Outbound packets

    One record per header struct; the fields are the ones the transport
    assigns.  A field the source leaves at its zero initialiser is 0
    here. *)

Inductive payload_type_t := SIDEBAND | CXL_IO | CXL_MEM.
Inductive sideband_type_t := SIDEBAND_CONNECTION_REQUEST.
Inductive cxl_mem_channel_t := M2S_REQ | M2S_RWD.
Inductive cxl_mem_opcode_t := MEM_RD | MEM_WR.
Inductive cxl_io_fmt_type_t :=
  MRD_32B | MRD_64B | MWR_32B | MWR_64B | CFG_RD0 | CFG_RD1 | CFG_WR0 | CFG_WR1.

Record system_header_packet_t := {
  payload_type : payload_type_t;
  payload_length : Z
}.

Record cxl_mem_m2s_header_t := {
  mem_opcode : cxl_mem_opcode_t;
  addr : Z
}.

Record cxl_io_header_t := {
  fmt_type : cxl_io_fmt_type_t;
  length_upper : Z;
  length_lower : Z
}.

Record cxl_io_mreq_header_t := {
  mreq_req_id : Z;
  mreq_tag : Z;
  addr_lower : Z;
  addr_upper : Z
}.

Record cxl_io_cfg_req_header_t := {
  cfg_req_id : Z;
  cfg_tag : Z;
  first_dw_be : Z;
  last_dw_be : Z;
  dest_id : Z;
  ext_reg_num : Z;
  reg_num : Z
}.

(** [cxl_io_cfg_req_header_t header = {}] *)
Definition zero_cfg_req_header : cxl_io_cfg_req_header_t :=
  {| cfg_req_id := 0; cfg_tag := 0; first_dw_be := 0; last_dw_be := 0;
     dest_id := 0; ext_reg_num := 0; reg_num := 0 |}.

(** The packet structs handed to [write], one constructor per struct
    type, the arguments in the order of the struct's members. *)
Inductive wire_packet :=
| sideband_connection_request_packet
    (system_header : system_header_packet_t)
    (sideband_header : sideband_type_t) (port : Z)
| cxl_mem_m2s_req_packet
    (system_header : system_header_packet_t)
    (cxl_mem_header : cxl_mem_channel_t)
    (m2s_req_header : cxl_mem_m2s_header_t)
| cxl_mem_m2s_rwd_packet
    (system_header : system_header_packet_t)
    (cxl_mem_header : cxl_mem_channel_t)
    (m2s_rwd_header : cxl_mem_m2s_header_t) (data : list Z)
| cxl_io_mem_rd_packet
    (system_header : system_header_packet_t)
    (cxl_io_header : cxl_io_header_t) (mreq_header : cxl_io_mreq_header_t)
| cxl_io_mem_wr_packet_32b
    (system_header : system_header_packet_t)
    (cxl_io_header : cxl_io_header_t) (mreq_header : cxl_io_mreq_header_t)
    (data : Z)
| cxl_io_mem_wr_packet_64b
    (system_header : system_header_packet_t)
    (cxl_io_header : cxl_io_header_t) (mreq_header : cxl_io_mreq_header_t)
    (data : Z)
| cxl_io_cfg_rd_packet
    (system_header : system_header_packet_t)
    (cxl_io_header : cxl_io_header_t)
    (cfg_req_header : cxl_io_cfg_req_header_t)
| cxl_io_cfg_wr_packet
    (system_header : system_header_packet_t)
    (cxl_io_header : cxl_io_header_t)
    (cfg_req_header : cxl_io_cfg_req_header_t) (value : Z).

(** ** The packet catalog *)

Record packet_table_entry_t := {
  packet : list Z;        (* uint8_t packet[MAX_PAYLOAD_SIZE] *)
  packet_size : Z         (* size_t *)
}.

(** ** The world: socket, clock and global memory *)

(** How the next [read] on the socket completes. *)
Inductive read_event :=
| Data (wait avail : Z)    (* after [wait] seconds [avail] bytes are ready *)
| Closed (wait : Z)        (* the peer has closed: read returns 0 *)
| Error (wait : Z).        (* read returns -1 *)

Inductive syscall :=
| sys_read (count ret : Z)
| sys_write (buf : wire_packet) (count ret : Z).

Record world := {
  now : Z;                        (* what time(NULL) returns *)
  pending : list read_event;      (* completions of the coming reads *)
  rx : list Z;                    (* the bytes the peer sends, in order *)
  tx : list bool;                 (* does the n-th coming write succeed *)
  trace : list syscall;           (* the system calls made so far *)
  stray : list (Z * Z);           (* bytes stored outside their array:
                                     (index from the array's start, byte) *)
  packet_entries : list packet_table_entry_t
}.

Definition with_packet_entries (t : list packet_table_entry_t) (w : world) :=
  {| now := now w; pending := pending w; rx := rx w; tx := tx w;
     trace := trace w; stray := stray w; packet_entries := t |}.

(** [packet_table_entry_t packet_entries[512] = { 0 }] *)
Definition zero_entry : packet_table_entry_t :=
  {| packet := replicate 512 0; packet_size := 0 |}.

Definition initial_packet_entries : list packet_table_entry_t :=
  replicate 512 zero_entry.

#[global] Instance packet_table_entry_inhabited : Inhabited packet_table_entry_t :=
  populate zero_entry.

(** ** Outcomes

    A call returns, or the process dies in [assert] or on a null
    pointer; [OutOfFuel] is the model's own: a loop was cut off. *)

Inductive outcome (A : Type) :=
| Returned (a : A) (w : world)
| AssertionFailed (w : world)
| NullDeref (w : world)
| OutOfFuel.

Arguments Returned {A} a w.
Arguments AssertionFailed {A} w.
Arguments NullDeref {A} w.
Arguments OutOfFuel {A}.

Definition M (A : Type) : Type := world -> outcome A.

Definition ret {A} (a : A) : M A := fun w => Returned a w.

Definition bind {A B} (c : M A) (k : A -> M B) : M B := fun w =>
  match c w with
  | Returned a w' => k a w'
  | AssertionFailed w' => AssertionFailed w'
  | NullDeref w' => NullDeref w'
  | OutOfFuel => OutOfFuel
  end.

Notation "x <- c ;; k" := (bind c (fun x => k))
  (at level 63, c at next level, right associativity).
Notation "c ;;; k" := (bind c (fun _ => k))
  (at level 63, right associativity).

Definition assert (b : bool) : M unit := fun w =>
  if b then Returned tt w else AssertionFailed w.

Definition deref {A} (p : option A) : M A := fun w =>
  match p with
  | Some a => Returned a w
  | None => NullDeref w
  end.

Definition get_world : M world := fun w => Returned w w.

(** ** Memory and system calls *)

(** [arr[i] = b]; a store outside the array lands in [stray].  In C
    such a store is undefined behaviour and nothing can be said of what
    follows it; here it is recorded and the call goes on, so a property
    of how a call ends or what it leaves speaks for the program only on
    runs whose [stray] did not grow. *)
Definition store_byte (arr : list Z) (i b : Z) (w : world) : list Z * world :=
  if (0 <=? i) && (i <? Z.of_nat (length arr))
  then (<[Z.to_nat i := b]> arr, w)
  else (arr,
        {| now := now w; pending := pending w; rx := rx w; tx := tx w;
           trace := trace w; stray := stray w ++ [(i, b)];
           packet_entries := packet_entries w |}).

Fixpoint store_bytes (arr : list Z) (i : Z) (bs : list Z) (w : world)
  : list Z * world :=
  match bs with
  | [] => (arr, w)
  | b :: bs' =>
      let '(arr', w') := store_byte arr i b w in
      store_bytes arr' (i + 1) bs' w'
  end.

(** What one [read (fd, p, count)] returns and which bytes it hands
    over: at most [count], at most what is ready.  Not modelled: a
    [count] above [SSIZE_MAX], which Linux refuses with -1 before taking
    any byte; here it is answered like any other. *)
Definition read_completion (ev : option read_event) (count : Z) (stream : list Z)
  : Z * Z * list Z :=
  match ev with
  | None => (MAX_DURATION, -1, [])     (* SO_RCVTIMEO expires *)
  | Some (Error wait) => (wait, -1, [])
  | Some (Closed wait) => (wait, 0, [])
  | Some (Data wait avail) =>
      let bs := take (Z.to_nat (Z.min avail count)) stream in
      (wait, Z.of_nat (length bs), bs)
  end.

(** [read (socket_fd, &arr[pos], count)] *)
Definition read (arr : list Z) (pos count : Z) : M (Z * list Z) := fun w =>
  let '(wait, n, bs) := read_completion (head (pending w)) count (rx w) in
  let w1 :=
    {| now := now w + Z.max 0 wait; pending := tail (pending w);
       rx := drop (length bs) (rx w); tx := tx w;
       trace := trace w ++ [sys_read count n]; stray := stray w;
       packet_entries := packet_entries w |} in
  let '(arr', w2) := store_bytes arr pos bs w1 in
  Returned (n, arr') w2.

(** [write (socket_fd, &pkt, count)] *)
Definition write (pkt : wire_packet) (count : Z) : M Z := fun w =>
  let n := match tx w with true :: _ => count | _ => -1 end in
  Returned n
    {| now := now w; pending := pending w; rx := rx w; tx := tail (tx w);
       trace := trace w ++ [sys_write pkt count n]; stray := stray w;
       packet_entries := packet_entries w |}.

(** ** The framing reader *)

Section Transport.

Variable P : platform.

(** The [while] loop of [wait_for_payload]; [buffer] is the pointer
    [&arr[off]].  [fuel] bounds the number of iterations. *)
Fixpoint wait_for_payload_loop (fuel : nat) (arr : list Z)
    (off buffer_size payload_size start_time total_bytes_read : Z)
  : M (bool * list Z) :=
  match fuel with
  | O => fun _ => OutOfFuel
  | S fuel' =>
      if total_bytes_read <? payload_size then
        w <- get_world ;;
        let current_time := now w in
        if current_time - start_time >? MAX_DURATION then ret (false, arr)
        else
          let remaining_size := size_t (payload_size - total_bytes_read) in
          r <- read arr (off + total_bytes_read) remaining_size ;;
          let '(bytes_read, arr') := r in
          if bytes_read <=? 0 then ret (false, arr')
          else if (bytes_read >? 0)
                  && (size_t (bytes_read + total_bytes_read) >? buffer_size)
          then ret (false, arr')
          else
            wait_for_payload_loop fuel' arr' off buffer_size payload_size
              start_time
              (if bytes_read >? 0 then size_t (total_bytes_read + bytes_read)
               else total_bytes_read)
      else ret (true, arr)
  end.

(** Every iteration that goes round again has used up one entry of
    [pending], so this fuel is never exhausted
    ([wait_for_payload_returns]). *)
Definition wait_for_payload (arr : list Z) (off buffer_size payload_size : Z)
  : M (bool * list Z) := fun w =>
  let start_time := now w in
  wait_for_payload_loop (S (length (pending w))) arr off buffer_size
    payload_size start_time 0 w.

Definition wait_for_system_header (arr : list Z) (off buffer_size : Z)
  : M (bool * list Z) :=
  let payload_size := sizeof_system_header_packet_t P in
  wait_for_payload arr off buffer_size payload_size.

Definition get_next_tag (_ : unit) : Z := 0.

(** [memcpy (dst, src, n)] for [n] within both arrays. *)
Definition memcpy (dst src : list Z) (n : Z) : list Z :=
  take (Z.to_nat n) src ++ drop (Z.to_nat n) dst.

(** [uint8_t buffer[MAX_PAYLOAD_SIZE]]: an automatic array, its
    contents indeterminate until [read] stores into it; zero here. *)
Definition automatic_buffer : list Z := replicate (Z.to_nat MAX_PAYLOAD_SIZE) 0.

Definition process_incoming_packets : M bool :=
  let buffer := automatic_buffer in
  let buffer_size := MAX_PAYLOAD_SIZE in
  r <- wait_for_system_header buffer 0 buffer_size ;;
  let '(ok, buffer) := r in
  if negb ok then ret false
  else
    (* system_header->payload_length; each of its three uses converts
       it to size_t *)
    let system_header_payload_length :=
      size_t (payload_length_of P
                (take (Z.to_nat (sizeof_system_header_packet_t P)) buffer)) in
    let system_header_size := sizeof_system_header_packet_t P in
    let remaining_payload_size :=
      size_t (system_header_payload_length - system_header_size) in
    let buffer_offset := system_header_size in
    let buffer_size := size_t (buffer_size - buffer_offset) in
    r <- wait_for_payload buffer buffer_offset buffer_size
           remaining_payload_size ;;
    let '(ok, buffer) := r in
    if negb ok then ret false
    else
      let tag := 0%nat in
      w <- get_world ;;
      let entry := packet_entries w !!! tag in
      assert (packet_size entry =? 0) ;;;
      fun w =>
        Returned true
          (with_packet_entries
             (<[tag := {| packet := memcpy (packet entry) buffer
                                      system_header_payload_length;
                          packet_size := system_header_payload_length |}]>
                (packet_entries w)) w).

(** A pointer into [packet_entries] is the index of the entry. *)
Definition get_packet_entry (tag : Z) : option nat :=
  if tag >=? MAX_TAG then None else Some (Z.to_nat tag).

(** [*entry] *)
Definition load_entry (entry : option nat) : M packet_table_entry_t :=
  i <- deref entry ;;
  w <- get_world ;;
  ret (packet_entries w !!! i).

Definition release_packet_entry (tag : Z) : M bool :=
  if tag >=? MAX_TAG then ret false
  else fun w =>
    let i := Z.to_nat tag in
    let entry := packet_entries w !!! i in
    Returned true
      (with_packet_entries
         (<[i := {| packet := packet entry; packet_size := 0 |}]>
            (packet_entries w)) w).

(** *** Sideband *)


(** The loop shared, up to the expected size, by
    [wait_for_base_sideband_packet], [wait_for_cxl_mem_completion] and
    [wait_for_cxl_mem_mem_data]: return the entry's packet once its size
    is the expected one, otherwise take in one more packet. *)
Fixpoint wait_for_sized_packet (fuel : nat) (expected tag : Z)
  : M (option (list Z)) :=
  match fuel with
  | O => fun _ => OutOfFuel
  | S fuel' =>
      entry <- load_entry (get_packet_entry tag) ;;
      if packet_size entry =? expected then ret (Some (packet entry))
      else
        ok <- process_incoming_packets ;;
        if negb ok then ret None
        else wait_for_sized_packet fuel' expected tag
  end.

Definition wait_for_base_sideband_packet (fuel : nat) : M (option (list Z)) :=
  let tag := 0 in
  wait_for_sized_packet fuel (sizeof_base_sideband_packet_t P) tag.

(** *** CXL.mem

    A send function stores [get_next_tag ()] through [tag] before
    anything else; the first component of its result is that value. *)

Definition send_cxl_mem_mem_write (hpa : Z) (data : list Z) (w : world)
  : Z * outcome bool :=
  let tag := get_next_tag tt in
  (tag,
   (let packet :=
      cxl_mem_m2s_rwd_packet
        {| payload_type := CXL_MEM;
           payload_length := sizeof_cxl_mem_m2s_rwd_packet_t P |}
        M2S_RWD
        {| mem_opcode := MEM_WR; addr := Z.shiftr hpa 6 |}
        (memcpy (replicate (Z.to_nat CXL_MEM_ACCESS_UNIT) 0) data
           CXL_MEM_ACCESS_UNIT) in
    n <- write packet (sizeof_cxl_mem_m2s_rwd_packet_t P) ;;
    let successful := negb (n =? -1) in
    ret successful) w).

Definition send_cxl_mem_mem_read (hpa : Z) (w : world) : Z * outcome bool :=
  let tag := get_next_tag tt in
  (tag,
   (let packet :=
      cxl_mem_m2s_req_packet
        {| payload_type := CXL_MEM;
           payload_length := sizeof_cxl_mem_m2s_req_packet_t P |}
        M2S_REQ
        {| mem_opcode := MEM_RD; addr := Z.shiftr hpa 6 |} in
    n <- write packet (sizeof_cxl_mem_m2s_req_packet_t P) ;;
    let successful := negb (n =? -1) in
    ret successful) w).

Definition wait_for_cxl_mem_completion (fuel : nat) (tag : Z)
  : M (option (list Z)) :=
  wait_for_sized_packet fuel (sizeof_cxl_mem_s2m_ndr_packet_t P) tag.

Definition wait_for_cxl_mem_mem_data (fuel : nat) (tag : Z)
  : M (option (list Z)) :=
  wait_for_sized_packet fuel (sizeof_cxl_mem_s2m_drs_packet_t P) tag.

(** *** CXL.io *)

Definition round_up_to_nearest_dword (number : Z) : Z :=
  let dword_size := 4 in
  Z.land (u32 (number + dword_size - 1)) (u32 (Z.lnot (dword_size - 1))).

(** The address fields every memory request is given. *)
Definition mreq_header_of (hpa tag : Z) : cxl_io_mreq_header_t :=
  {| mreq_req_id := 0;
     mreq_tag := tag;
     addr_lower := Z.shiftr (Z.land hpa 0xFF) 2;
     addr_upper := Z.land (htonll P hpa) 0xFFFFFFFFFFFFFF |}.

Definition send_cxl_io_mem_read (hpa size : Z) (w : world) : Z * outcome bool :=
  let tag := get_next_tag tt in
  (tag,
   (assert (Z.rem size 4 =? 0) ;;;
    let hdr_length := u16 (round_up_to_nearest_dword (u32 size) / 4) in
    let packet :=
      cxl_io_mem_rd_packet
        {| payload_type := CXL_IO;
           payload_length := sizeof_cxl_io_mem_rd_packet_t P |}
        {| fmt_type := if size =? 4 then MRD_32B else MRD_64B;
           length_upper := EXTRACT_UPPER_2 hdr_length;
           length_lower := EXTRACT_LOWER_8 hdr_length |}
        (mreq_header_of hpa tag) in
    n <- write packet (sizeof_cxl_io_mem_rd_packet_t P) ;;
    let successful := negb (n =? -1) in
    ret successful) w).

Definition send_cxl_io_mem_write (hpa val size : Z) (w : world)
  : Z * outcome bool :=
  let tag := get_next_tag tt in
  (tag,
   (assert (Z.rem size 4 =? 0) ;;;
    let hdr_length := u16 (round_up_to_nearest_dword (u32 size) / 4) in
    if size >? 4 then
      assert (size =? 8) ;;;
      assert (val <? 0xFFFFFFFFFFFFFFFF) ;;;
      let packet_64 :=
        cxl_io_mem_wr_packet_64b
          {| payload_type := CXL_IO;
             payload_length := sizeof_cxl_io_mem_wr_packet_64b_t P |}
          {| fmt_type := MWR_64B;
             length_upper := EXTRACT_UPPER_2 hdr_length;
             length_lower := EXTRACT_LOWER_8 hdr_length |}
          (mreq_header_of hpa tag)
          val in
      n <- write packet_64 (sizeof_cxl_io_mem_wr_packet_64b_t P) ;;
      let successful := negb (n =? -1) in
      ret successful
    else
      assert (size =? 4) ;;;
      assert (val <? 0xFFFFFFFF) ;;;
      let packet :=
        cxl_io_mem_wr_packet_32b
          {| payload_type := CXL_IO;
             payload_length := sizeof_cxl_io_mem_wr_packet_32b_t P |}
          {| fmt_type := MWR_32B;
             length_upper := EXTRACT_UPPER_2 hdr_length;
             length_lower := EXTRACT_LOWER_8 hdr_length |}
          (mreq_header_of hpa tag)
          (u32 (Z.land val 0xFFFFFFFF)) in
      n <- write packet (sizeof_cxl_io_mem_wr_packet_32b_t P) ;;
      let successful := negb (n =? -1) in
      ret successful) w).

(** The [for] loop of [fill_cxl_io_cfg_req_packet]; [n] iterations are
    left. *)
Fixpoint byte_enable_loop (n : nat) (first_dw_be offset : Z) : Z :=
  match n with
  | O => first_dw_be
  | S n' =>
      byte_enable_loop n' (u8 (Z.lor first_dw_be (Z.shiftl 1 offset)))
        (u8 (offset + 1))
  end.

Definition fill_cxl_io_cfg_req_packet (header : cxl_io_cfg_req_header_t)
    (id cfg_addr size req_id tag : Z) : bool * cxl_io_cfg_req_header_t :=
  if cfg_addr >? 0xFFF then (false, header)
  else
    let offset := u8 (Z.land cfg_addr 0x03) in
    if offset + size >? 4 then (false, header)
    else
      let first_dw_be := byte_enable_loop (Z.to_nat size) 0 offset in
      (true,
       {| cfg_req_id := htons P req_id;
          cfg_tag := tag;
          first_dw_be := first_dw_be;
          last_dw_be := 0;
          dest_id := htons P id;
          ext_reg_num := Z.land (Z.shiftr cfg_addr 8) 0xF;
          reg_num := Z.land (Z.shiftr cfg_addr 2) 0x3F |}).

Definition send_cxl_io_config_space_read (bdf offset size : Z) (type0 : bool)
    (w : world) : Z * outcome bool :=
  let tag := get_next_tag tt in
  (tag,
   (let '(_, cfg_req_header) :=
      fill_cxl_io_cfg_req_packet zero_cfg_req_header bdf offset (u8 size) 0
        (u8 tag) in
    let packet :=
      cxl_io_cfg_rd_packet
        {| payload_type := CXL_IO;
           payload_length := sizeof_cxl_io_cfg_rd_packet_t P |}
        {| fmt_type := if type0 then CFG_RD0 else CFG_RD1;
           length_upper := 0;
           length_lower := 1 |}
        cfg_req_header in
    n <- write packet (sizeof_cxl_io_cfg_rd_packet_t P) ;;
    let successful := negb (n =? -1) in
    ret successful) w).

Definition send_cxl_io_config_space_write (bdf offset val size : Z)
    (type0 : bool) (w : world) : Z * outcome bool :=
  let tag := get_next_tag tt in
  (tag,
   (let '(_, cfg_req_header) :=
      fill_cxl_io_cfg_req_packet zero_cfg_req_header bdf offset (u8 size) 0
        (u8 tag) in
    let packet :=
      cxl_io_cfg_wr_packet
        {| payload_type := CXL_IO;
           payload_length := sizeof_cxl_io_cfg_wr_packet_t P |}
        {| fmt_type := if type0 then CFG_WR0 else CFG_WR1;
           length_upper := 0;
           length_lower := 1 |}
        cfg_req_header
        val in
    n <- write packet (sizeof_cxl_io_cfg_wr_packet_t P) ;;
    let successful := negb (n =? -1) in
    ret successful) w).

Fixpoint wait_for_cxl_io_completion (fuel : nat) (tag : Z)
  : M (option (list Z)) :=
  match fuel with
  | O => fun _ => OutOfFuel
  | S fuel' =>
      entry <- load_entry (get_packet_entry tag) ;;
      if packet_size entry >? 0 then
        assert (packet_size entry =? sizeof_cxl_io_completion_packet_t P) ;;;
        ret (Some (packet entry))
      else
        ok <- process_incoming_packets ;;
        if negb ok then ret None
        else wait_for_cxl_io_completion fuel' tag
  end.

(** [data_is_null] says whether the caller passed [data == NULL]: both
    branches store through [data] without a test.  Returns [packet_size]
    and, when a completion was there, the value stored through [data]. *)
Fixpoint wait_for_cxl_io_completion_data (fuel : nat) (tag : Z)
    (data_is_null : bool) : M (Z * option Z) :=
  match fuel with
  | O => fun _ => OutOfFuel
  | S fuel' =>
      entry <- load_entry (get_packet_entry tag) ;;
      if packet_size entry >? 0 then
        assert ((packet_size entry
                   =? sizeof_cxl_io_completion_data_packet_32b_t P)
                || (packet_size entry
                      =? sizeof_cxl_io_completion_data_packet_64b_t P)) ;;;
        let packet_size := packet_size entry in
        (if data_is_null then (fun w => NullDeref w) else ret tt) ;;;
        if packet_size =? sizeof_cxl_io_completion_data_packet_32b_t P
        then ret (packet_size, Some (completion_data_32b_of P (packet entry)))
        else ret (packet_size, Some (completion_data_64b_of P (packet entry)))
      else
        ok <- process_incoming_packets ;;
        if negb ok then ret (0, None)
        else wait_for_cxl_io_completion_data fuel' tag data_is_null
  end.

(** [data_is_null] says whether the caller passed [data == NULL]; the
    result is the value stored through [data], if any. *)
Fixpoint wait_for_cxl_io_cfg_completion (fuel : nat) (tag : Z)
    (data_is_null : bool) : M (option Z) :=
  match fuel with
  | O => fun _ => OutOfFuel
  | S fuel' =>
      entry <- load_entry (get_packet_entry tag) ;;
      if packet_size entry >? 0 then
        (if data_is_null
         then assert (packet_size entry =? sizeof_cxl_io_completion_packet_t P)
         else assert ((packet_size entry
                         =? sizeof_cxl_io_completion_packet_t P)
                      || (packet_size entry
                            =? sizeof_cxl_io_completion_data_packet_32b_t P))) ;;;
        if packet_size entry =? sizeof_cxl_io_completion_packet_t P then
          if negb data_is_null then ret (Some 0xFFFFFFFF) else ret None
        else
          (if data_is_null then (fun w => NullDeref w) else ret tt) ;;;
          ret (Some (u32 (completion_data_32b_of P (packet entry))))
      else
        ok <- process_incoming_packets ;;
        if negb ok then ret None
        else wait_for_cxl_io_cfg_completion fuel' tag data_is_null
  end.

End Transport.

(** ** A concrete platform to run the model on

    Little-endian, a four-byte system header whose second half-word is
    [payload_length]; the other sizes are those of packed structs of the
    fields above.  The theorems below hold for every [platform]; this one
    serves to evaluate them. *)

Definition sample_platform : platform :=
  {| host_big_endian := false;
     sizeof_system_header_packet_t := 4;
     payload_length_of := fun hdr => of_bytes_le (take 2 (drop 2 hdr));
     sizeof_sideband_connection_request_packet_t := 9;
     sizeof_base_sideband_packet_t := 5;
     sizeof_cxl_mem_m2s_req_packet_t := 18;
     sizeof_cxl_mem_m2s_rwd_headers := 18;
     sizeof_cxl_mem_s2m_ndr_packet_t := 10;
     sizeof_cxl_mem_s2m_drs_packet_t := 74;
     sizeof_cxl_io_mem_rd_packet_t := 20;
     sizeof_cxl_io_mem_wr_packet_32b_t := 24;
     sizeof_cxl_io_mem_wr_packet_64b_t := 28;
     sizeof_cxl_io_cfg_rd_packet_t := 16;
     sizeof_cxl_io_cfg_wr_packet_t := 20;
     sizeof_cxl_io_completion_packet_t := 16;
     sizeof_cxl_io_completion_data_packet_32b_t := 20;
     sizeof_cxl_io_completion_data_packet_64b_t := 24;
     completion_data_32b_of := fun p => of_bytes_le (take 4 (drop 16 p));
     completion_data_64b_of := fun p => of_bytes_le (take 8 (drop 16 p)) |}.

(** A quiet connection: nothing to read, the next [n] writes succeed. *)
Definition idle_world (n : nat) : world :=
  {| now := 0; pending := []; rx := []; tx := replicate n true; trace := [];
     stray := []; packet_entries := initial_packet_entries |}.

(** A connection on which the bytes [bs] arrive in the chunks [evs]. *)
Definition receiving_world (evs : list read_event) (bs : list Z) : world :=
  {| now := 0; pending := evs; rx := bs; tx := []; trace := [];
     stray := []; packet_entries := initial_packet_entries |}.

(** A packet of [len] bytes for [sample_platform]: the system header
    declares [declared] bytes, the body is filled with [fill]. *)
Definition sample_packet (declared : Z) (len : nat) (fill : Z) : list Z :=
  [0; 0] ++ bytes_le 2 declared ++ replicate (len - 4) fill.

(** * Vocabulary of the statements *)

(** [w'] is [w] up to stray stores. *)
Definition only_stray_differs (w w' : world) : Prop :=
  now w' = now w /\ pending w' = pending w /\ rx w' = rx w /\ tx w' = tx w /\
  trace w' = trace w /\ packet_entries w' = packet_entries w.

(** The world a call ends in, whether it returned or died. *)
Definition final_world {A} (o : outcome A) : option world :=
  match o with
  | Returned _ w | AssertionFailed w | NullDeref w => Some w
  | OutOfFuel => None
  end.

(** The declared length of the packet whose header sits in [buffer]. *)
Definition declared_length (P : platform) (buffer : list Z) : Z :=
  size_t (payload_length_of P
            (take (Z.to_nat (sizeof_system_header_packet_t P)) buffer)).

(** The three ways through [process_incoming_packets]. *)
Inductive receive_path (P : platform) (w : world) : outcome bool -> Prop :=
| header_failed buffer w1 :
    wait_for_system_header P automatic_buffer 0 MAX_PAYLOAD_SIZE w
      = Returned (false, buffer) w1 ->
    receive_path P w (Returned false w1)
| payload_failed buffer1 w1 buffer2 w2 :
    wait_for_system_header P automatic_buffer 0 MAX_PAYLOAD_SIZE w
      = Returned (true, buffer1) w1 ->
    wait_for_payload buffer1 (sizeof_system_header_packet_t P)
      (size_t (MAX_PAYLOAD_SIZE - sizeof_system_header_packet_t P))
      (size_t (declared_length P buffer1 - sizeof_system_header_packet_t P))
      w1 = Returned (false, buffer2) w2 ->
    receive_path P w (Returned false w2)
| payload_complete buffer1 w1 buffer2 w2 :
    wait_for_system_header P automatic_buffer 0 MAX_PAYLOAD_SIZE w
      = Returned (true, buffer1) w1 ->
    wait_for_payload buffer1 (sizeof_system_header_packet_t P)
      (size_t (MAX_PAYLOAD_SIZE - sizeof_system_header_packet_t P))
      (size_t (declared_length P buffer1 - sizeof_system_header_packet_t P))
      w1 = Returned (true, buffer2) w2 ->
    receive_path P w
      (if packet_size (packet_entries w2 !!! 0%nat) =? 0
       then Returned true
              (with_packet_entries
                 (<[0%nat :=
                      {| packet := memcpy (packet (packet_entries w2 !!! 0%nat))
                                     buffer2 (declared_length P buffer1);
                         packet_size := declared_length P buffer1 |}]>
                    (packet_entries w2)) w2)
       else AssertionFailed w2).

(** The call handed [pkt] to [write], [count] bytes of it, once, and
    returned whether [write] took it. *)
Definition sends (o : outcome bool) (w : world) (pkt : wire_packet) (count : Z)
  : Prop :=
  exists ok w' n,
    o = Returned ok w' /\
    trace w' = trace w ++ [sys_write pkt count n] /\
    packet_entries w' = packet_entries w /\
    ok = negb (n =? -1) /\
    (head (tx w) = Some true -> n = count).

(** A peer that declares 600 bytes and sends them: four bytes of header,
    then the rest in one piece. *)
Definition oversize_world : world :=
  receiving_world [Data 0 4; Data 0 1000] (sample_packet 600 600 7).

(** Two packets of 12 bytes, each arriving header first. *)
Definition two_packets_world : world :=
  receiving_world [Data 0 4; Data 0 8; Data 1 4; Data 0 8]
    (sample_packet 12 12 7 ++ sample_packet 12 12 9).

(** [two_packets_world] after the first packet has been taken in. *)
Definition one_packet_filed : world :=
  default two_packets_world
    (final_world (process_incoming_packets sample_platform two_packets_world)).

(** The [n] low bytes of [x], most significant first: network order. *)
Definition bytes_be (n : nat) (x : Z) : list Z := rev (bytes_le n x).

Definition is_byte (b : Z) : Prop := 0 <= b < 256.

(** Settles a goal made of integer comparisons by cases on each. *)
Ltac decide_comparisons :=
  repeat match goal with
    | |- context [?a <=? ?b] => destruct (Z.leb_spec a b)
    | |- context [?a <? ?b] => destruct (Z.ltb_spec a b)
    | |- context [?a =? ?b] => destruct (Z.eqb_spec a b)
    end;
  cbn [andb orb negb]; first [reflexivity | lia].

(** The two phases of [process_incoming_packets]: the read of the system
    header into the automatic buffer, and the read of the rest of the
    packet behind it, as long as the header [buffer1] declares. *)
Definition header_phase (P : platform) : M (bool * list Z) :=
  wait_for_system_header P automatic_buffer 0 MAX_PAYLOAD_SIZE.

Definition payload_phase (P : platform) (buffer1 : list Z) : M (bool * list Z) :=
  wait_for_payload buffer1 (sizeof_system_header_packet_t P)
    (size_t (MAX_PAYLOAD_SIZE - sizeof_system_header_packet_t P))
    (size_t (declared_length P buffer1 - sizeof_system_header_packet_t P)).

(** How a wait [r], started in [w] with nothing to return, ends, given
    the end [o] of the [process_incoming_packets] it calls: when the
    receive fails, with nothing stored outside its buffer, the wait
    returns [failure] in the world the receive left; when the receive
    dies in the assertion of the store, so does the wait, in the same
    world; when a packet is taken in, [next] holds of the world it is
    filed in. *)
Definition ends_with_receive {A} (failure : A) (w : world) (o : outcome bool)
    (r : outcome A) (next : world -> Prop) : Prop :=
  match o with
  | Returned false w1 => stray w1 = stray w -> r = Returned failure w1
  | AssertionFailed w1 => r = AssertionFailed w1
  | Returned true w1 => next w1
  | NullDeref _ | OutOfFuel => False
  end.

(** The wait [r] for [tag], started in [w], receives and then gives up:
    it calls [process_incoming_packets] and ends as that call ends;
    only when the call takes a packet in, which needs [tag] to be other
    than 0, does it call once more, and the second call takes nothing
    in. *)
Definition receives_and_gives_up {A} (P : platform) (failure : A) (tag : Z)
    (w : world) (r : outcome A) : Prop :=
  ends_with_receive failure w (process_incoming_packets P w) r
    (fun w1 =>
       tag <> 0 /\
       ends_with_receive failure w1 (process_incoming_packets P w1) r
         (fun _ => False)).

(** What [wait_for_cxl_io_completion_data] does with the populated entry
    [e] in world [w]; [run data_is_null] is the call.  The 32-bit layout
    is tried first. *)
Definition reads_completion_data (P : platform) (e : packet_table_entry_t)
    (run : bool -> outcome (Z * option Z)) (w : world) : Prop :=
  let size := packet_size e in
  (size = sizeof_cxl_io_completion_data_packet_32b_t P ->
   run false = Returned (size, Some (completion_data_32b_of P (packet e))) w) /\
  (size = sizeof_cxl_io_completion_data_packet_64b_t P ->
   size <> sizeof_cxl_io_completion_data_packet_32b_t P ->
   run false = Returned (size, Some (completion_data_64b_of P (packet e))) w) /\
  (size = sizeof_cxl_io_completion_data_packet_32b_t P \/
   size = sizeof_cxl_io_completion_data_packet_64b_t P ->
   run true = NullDeref w) /\
  (size <> sizeof_cxl_io_completion_data_packet_32b_t P ->
   size <> sizeof_cxl_io_completion_data_packet_64b_t P ->
   forall data_is_null, run data_is_null = AssertionFailed w).

(** One round of a wait that finds nothing to return: receive, then give
    up, die with the receive, or go round again with [rest]. *)
Definition one_round {A} (P : platform) (failure : A) (rest : M A) : M A :=
  fun w =>
    match process_incoming_packets P w with
    | Returned true w1 => rest w1
    | Returned false w1 => Returned failure w1
    | AssertionFailed w1 => AssertionFailed w1
    | NullDeref w1 => NullDeref w1
    | OutOfFuel => OutOfFuel
    end.

(** A reply of 12 bytes has been filed under tag 0 and the peer sends
    nothing more. *)
Definition stale_reply_world : world :=
  default (idle_world 0)
    (final_world
       (process_incoming_packets sample_platform
          (receiving_world [Data 0 4; Data 0 8] (sample_packet 12 12 7)))).

(** A peer whose header declares 2 bytes, two less than the header
    itself, and which has one more byte to send. *)
Definition short_length_world : world :=
  receiving_world [Data 0 4; Data 0 1] (sample_packet 2 4 0 ++ [1]).

(** A catalog entry as [process_incoming_packets] and
    [release_packet_entry] keep it: a buffer of 512 bytes and a length
    that fits it. *)
Definition entry_ok (e : packet_table_entry_t) : Prop :=
  length (packet e) = 512%nat /\ 0 <= packet_size e <= MAX_PAYLOAD_SIZE.

(** The catalog: [MAX_TAG] such entries. *)
Definition catalog_ok (t : list packet_table_entry_t) : Prop :=
  length t = 512%nat /\ Forall entry_ok t.

(** A reply of 10 bytes, the size of a no-data response on
    [sample_platform], arriving header first. *)
Definition ndr_reply_world : world :=
  receiving_world [Data 0 4; Data 0 6] (sample_packet 10 10 5).

(** The call returned its failure value [failure], or the process died
    in an assertion. *)
Definition fails_or_dies {A} (failure : A) (o : outcome A) : Prop :=
  match o with
  | Returned a _ => a = failure
  | AssertionFailed _ => True
  | NullDeref _ | OutOfFuel => False
  end.

(** A completion with 32 bits of data, 20 bytes on [sample_platform],
    whose data field holds 0x12345678. *)
Definition data_completion_world : world :=
  receiving_world [Data 0 4; Data 0 16]
    (sample_packet 20 16 0 ++ [0x78; 0x56; 0x34; 0x12]).

(** A completion without data, 16 bytes on [sample_platform], filed
    under tag 0. *)
Definition completion_filed_world : world :=
  default (idle_world 0)
    (final_world
       (process_incoming_packets sample_platform
          (receiving_world [Data 0 4; Data 0 12] (sample_packet 16 16 5)))).


(** * Properties *)

(** ** Integer facts *)

Lemma gtb_false x y : x <= y -> (x >? y) = false.
Proof. intros H. rewrite Z.gtb_ltb. apply Z.ltb_ge. exact H. Qed.

Lemma size_t_range x : 0 <= size_t x < 2 ^ 64.
Proof. unfold size_t, wrap. apply Z.mod_pos_bound. lia. Qed.

Lemma size_t_small x : 0 <= x < 2 ^ 64 -> size_t x = x.
Proof. intros H. unfold size_t, wrap. apply Z.mod_small. exact H. Qed.

Lemma size_t_borrow x : - 2 ^ 64 <= x < 0 -> size_t x = 2 ^ 64 + x.
Proof.
  intros H. unfold size_t, wrap.
  symmetry. apply Z.mod_unique_pos with (q := -1); lia.
Qed.

(** ** What the system calls leave alone *)

Lemma store_byte_frame arr i b w :
  only_stray_differs w (store_byte arr i b w).2.
Proof.
  unfold store_byte, only_stray_differs.
  destruct ((0 <=? i) && (i <? Z.of_nat (length arr))); simpl; tauto.
Qed.

Lemma store_bytes_frame bs : forall arr i w,
  only_stray_differs w (store_bytes arr i bs w).2.
Proof.
  induction bs as [|b bs IH]; intros arr i w; simpl.
  - unfold only_stray_differs; tauto.
  - pose proof (store_byte_frame arr i b w) as Hb.
    destruct (store_byte arr i b w) as [arr1 w1]; simpl in Hb.
    specialize (IH arr1 (i + 1) w1).
    unfold only_stray_differs in *.
    intuition congruence.
Qed.

(** [read] returns, consumes one pending completion, logs itself and
    touches neither the catalog nor the write side. *)
Lemma read_spec arr pos count w :
  exists n arr' w',
    read arr pos count w = Returned (n, arr') w' /\
    packet_entries w' = packet_entries w /\
    tx w' = tx w /\
    trace w' = trace w ++ [sys_read count n] /\
    pending w' = tail (pending w) /\
    (0 < n -> pending w <> []).
Proof.
  unfold read.
  destruct (read_completion (head (pending w)) count (rx w)) as [[wait n] bs] eqn:Hc.
  match goal with |- context [store_bytes arr pos bs ?w1] =>
    pose proof (store_bytes_frame bs arr pos w1) as Hf;
    destruct (store_bytes arr pos bs w1) as [arr' w2] end.
  exists n, arr', w2. simpl in Hf.
  destruct Hf as (_ & Hp & _ & Ht & Htr & He). simpl in *.
  repeat split; try assumption.
  intros Hn Hnil. rewrite Hnil in Hc. simpl in Hc.
  unfold MAX_DURATION in Hc. injection Hc as _ Hn' _. lia.
Qed.

(** ** The read loop *)

(** With one unit of fuel per pending completion and one to spare the
    loop returns; it leaves the catalog and the write side alone, only
    adds to the trace, asks [read] for all that is missing, and says
    [true] only if the payload was complete from the start or fits the
    declared capacity. *)
Lemma wait_for_payload_loop_spec fuel :
  forall arr off buffer_size payload_size start_time total w,
    (length (pending w) < fuel)%nat ->
    exists ok arr' w',
      wait_for_payload_loop fuel arr off buffer_size payload_size start_time
        total w = Returned (ok, arr') w' /\
      packet_entries w' = packet_entries w /\
      tx w' = tx w /\
      (exists l, trace w' = trace w ++ l /\
         (total < payload_size -> now w - start_time <= MAX_DURATION ->
          exists n l', l = sys_read (size_t (payload_size - total)) n :: l')) /\
      (ok = true -> payload_size <= total \/ payload_size <= buffer_size).
Proof.
  induction fuel as [|fuel IH]; intros arr off bsz psz st total w Hfuel.
  - lia.
  - cbn [wait_for_payload_loop].
    destruct (total <? psz) eqn:Hlt.
    2:{ apply Z.ltb_ge in Hlt. exists true, arr, w. unfold ret.
        repeat split; try reflexivity.
        - exists []. split; [now rewrite app_nil_r | lia].
        - intros _. left. exact Hlt. }
    apply Z.ltb_lt in Hlt.
    unfold bind at 1. unfold get_world.
    destruct (now w - st >? MAX_DURATION) eqn:Hexp.
    { exists false, arr, w. unfold ret. repeat split; try reflexivity.
      - exists []. split; [now rewrite app_nil_r |].
        intros _ Hle. apply Z.gtb_lt in Hexp. lia.
      - discriminate. }
    unfold bind at 1.
    destruct (read_spec arr (off + total) (size_t (psz - total)) w)
      as (n & arr1 & w1 & Hread & He1 & Htx1 & Htr1 & Hp1 & Hpos1).
    rewrite Hread.
    destruct (n <=? 0) eqn:Hn.
    { exists false, arr1, w1. unfold ret. repeat split; try assumption.
      - exists [sys_read (size_t (psz - total)) n]. split; [assumption|].
        intros _ _. eauto.
      - discriminate. }
    apply Z.leb_gt in Hn.
    assert (Hgt : (n >? 0) = true) by (apply Z.gtb_lt; lia).
    rewrite Hgt. cbn [andb].
    destruct (size_t (n + total) >? bsz) eqn:Hov.
    { exists false, arr1, w1. unfold ret. repeat split; try assumption.
      - exists [sys_read (size_t (psz - total)) n]. split; [assumption|].
        intros _ _. eauto.
      - discriminate. }
    assert (Hfuel1 : (length (pending w1) < fuel)%nat).
    { rewrite Hp1. specialize (Hpos1 Hn).
      destruct (pending w) as [|e es]; [congruence|]. simpl in *. lia. }
    destruct (IH arr1 off bsz psz st (size_t (total + n)) w1 Hfuel1)
      as (ok & arr2 & w2 & Hloop & He2 & Htx2 & (l2 & Htr2 & _) & Hok2).
    exists ok, arr2, w2. rewrite Hloop.
    repeat split.
    + congruence.
    + congruence.
    + exists (sys_read (size_t (psz - total)) n :: l2). split.
      * rewrite Htr2, Htr1, <- app_assoc. reflexivity.
      * intros _ _. eauto.
    + intros Hok. right.
      assert (Hle : size_t (total + n) <= bsz).
      { rewrite Z.add_comm. destruct (Z.gtb_spec (size_t (n + total)) bsz);
          [discriminate | lia]. }
      destruct (Hok2 Hok); lia.
Qed.

(** Asked for nothing, [wait_for_payload] returns [true] at once. *)
Lemma wait_for_payload_nothing arr off buffer_size w :
  wait_for_payload arr off buffer_size 0 w = Returned (true, arr) w.
Proof. reflexivity. Qed.

(** [wait_for_payload] returns on every world. *)
Lemma wait_for_payload_returns arr off buffer_size payload_size w :
  exists ok arr' w',
    wait_for_payload arr off buffer_size payload_size w = Returned (ok, arr') w' /\
    packet_entries w' = packet_entries w /\
    tx w' = tx w /\
    (exists l, trace w' = trace w ++ l /\
       (0 < payload_size ->
        exists n l', l = sys_read (size_t payload_size) n :: l')) /\
    (ok = true -> payload_size <= 0 \/ payload_size <= buffer_size).
Proof.
  unfold wait_for_payload.
  destruct (wait_for_payload_loop_spec (S (length (pending w))) arr off
              buffer_size payload_size (now w) 0 w)
    as (ok & arr' & w' & Hloop & He & Htx & (l & Htr & Hfirst) & Hok).
  { lia. }
  exists ok, arr', w'. repeat split; try assumption.
  exists l. split; [assumption|].
  intros Hpos. rewrite Z.sub_0_r in Hfirst. apply Hfirst; [assumption|].
  unfold MAX_DURATION. lia.
Qed.

(** ** Receiving one packet *)

Lemma process_incoming_packets_path P w :
  receive_path P w (process_incoming_packets P w).
Proof.
  unfold process_incoming_packets.
  unfold bind at 1.
  destruct (wait_for_payload_returns automatic_buffer 0 MAX_PAYLOAD_SIZE
              (sizeof_system_header_packet_t P) w)
    as (ok1 & buffer1 & w1 & Hhdr & _).
  fold (wait_for_system_header P automatic_buffer 0 MAX_PAYLOAD_SIZE) in Hhdr.
  rewrite Hhdr.
  destruct ok1; cbn [negb].
  2:{ unfold ret. eapply header_failed. exact Hhdr. }
  fold (declared_length P buffer1).
  unfold bind at 1.
  destruct (wait_for_payload_returns buffer1 (sizeof_system_header_packet_t P)
              (size_t (MAX_PAYLOAD_SIZE - sizeof_system_header_packet_t P))
              (size_t (declared_length P buffer1
                       - sizeof_system_header_packet_t P)) w1)
    as (ok2 & buffer2 & w2 & Hpay & _).
  rewrite Hpay.
  destruct ok2; cbn [negb].
  2:{ unfold ret. eapply payload_failed; eassumption. }
  unfold bind, get_world, assert.
  pose proof (payload_complete P w buffer1 w1 buffer2 w2 Hhdr Hpay) as Hc.
  destruct (packet_size (packet_entries w2 !!! 0%nat) =? 0); exact Hc.
Qed.

Lemma wait_for_payload_inv arr off buffer_size payload_size w ok arr' w' :
  wait_for_payload arr off buffer_size payload_size w = Returned (ok, arr') w' ->
  packet_entries w' = packet_entries w /\
  tx w' = tx w /\
  (exists l, trace w' = trace w ++ l /\
     (0 < payload_size ->
      exists n l', l = sys_read (size_t payload_size) n :: l')) /\
  (ok = true -> payload_size <= 0 \/ payload_size <= buffer_size).
Proof.
  intros H.
  destruct (wait_for_payload_returns arr off buffer_size payload_size w)
    as (ok0 & arr0 & w0 & H0 & Hrest).
  rewrite H in H0. injection H0 as -> -> ->. exact Hrest.
Qed.

(** What one call does to the catalog: nothing, unless a whole packet
    came in and slot 0 was empty; then slot 0, and only slot 0, takes
    the packet. *)
Lemma process_incoming_packets_catalog P w :
  match process_incoming_packets P w with
  | Returned false w' => packet_entries w' = packet_entries w
  | Returned true w' =>
      packet_size (packet_entries w !!! 0%nat) = 0 /\
      exists buffer1 buffer2,
        let L := declared_length P buffer1 in
        (size_t (L - sizeof_system_header_packet_t P) <= 0 \/
         size_t (L - sizeof_system_header_packet_t P)
           <= size_t (MAX_PAYLOAD_SIZE - sizeof_system_header_packet_t P)) /\
        packet_entries w'
          = <[0%nat := {| packet := memcpy (packet (packet_entries w !!! 0%nat))
                                      buffer2 L;
                          packet_size := L |}]> (packet_entries w)
  | AssertionFailed w' =>
      packet_entries w' = packet_entries w /\
      packet_size (packet_entries w !!! 0%nat) <> 0
  | NullDeref _ | OutOfFuel => False
  end.
Proof.
  destruct (process_incoming_packets_path P w)
    as [b w1 Hh | b1 w1 b2 w2 Hh Hp | b1 w1 b2 w2 Hh Hp].
  - apply wait_for_payload_inv in Hh. tauto.
  - apply wait_for_payload_inv in Hh. apply wait_for_payload_inv in Hp.
    destruct Hh as (Hh & _), Hp as (Hp & _). congruence.
  - apply wait_for_payload_inv in Hh. apply wait_for_payload_inv in Hp.
    destruct Hh as (Hh & _), Hp as (Hp & _ & _ & Hfit).
    assert (He : packet_entries w2 = packet_entries w) by congruence.
    rewrite He.
    destruct (Z.eqb_spec (packet_size (packet_entries w !!! 0%nat)) 0) as [Hz|Hz].
    + split; [exact Hz|]. exists b1, b2. cbn zeta. split.
      * apply Hfit. reflexivity.
      * reflexivity.
    + split; assumption.
Qed.

(** ** Stores inside the array *)

Lemma store_bytes_inside bs : forall arr i w,
  0 <= i -> i + Z.of_nat (length bs) <= Z.of_nat (length arr) ->
  store_bytes arr i bs w
  = (take (Z.to_nat i) arr ++ bs ++ drop (Z.to_nat i + length bs) arr, w).
Proof.
  induction bs as [|b bs IH]; intros arr i w Hi Hfit; cbn [store_bytes length].
  - rewrite Nat.add_0_r. cbn [app]. now rewrite take_drop.
  - cbn [length] in Hfit. unfold store_byte.
    replace ((0 <=? i) && (i <? Z.of_nat (length arr))) with true
      by (symmetry; apply andb_true_intro; split;
          [apply Z.leb_le | apply Z.ltb_lt]; lia).
    rewrite IH by (rewrite ?length_insert; lia).
    f_equal.
    assert (Hn : (Z.to_nat i < length arr)%nat) by lia.
    rewrite (insert_take_drop arr _ b Hn).
    assert (Hk : length (take (Z.to_nat i) arr) = Z.to_nat i)
      by (rewrite length_take; lia).
    replace (Z.to_nat (i + 1)) with (length (take (Z.to_nat i) arr) + 1)%nat
      by lia.
    rewrite take_app_add'. 2: reflexivity.
    rewrite <- app_assoc. f_equal. cbn [take app]. f_equal.
    rewrite firstn_O. cbn [app]. f_equal.
    rewrite drop_app_ge by lia.
    replace (length (take (Z.to_nat i) arr) + 1 + length bs
             - length (take (Z.to_nat i) arr))%nat
      with (S (length bs)) by lia.
    cbn [drop]. rewrite drop_drop. f_equal. lia.
Qed.

Lemma take_drop_taken {A} (k : nat) (l : list A) :
  take k l ++ drop (length (take k l)) l = l.
Proof.
  destruct (decide (k <= length l)%nat) as [Hle|Hgt].
  - rewrite length_take_le by assumption. apply take_drop.
  - rewrite take_ge by lia. rewrite drop_all. apply app_nil_r.
Qed.

(** What [read] hands over comes off the front of the stream, is no more
    than was asked for, and, when it fits the array, lands in it. *)
Lemma read_stores arr pos count w n arr' w' :
  read arr pos count w = Returned (n, arr') w' ->
  exists bs,
    rx w = bs ++ rx w' /\
    Z.of_nat (length bs) = Z.max 0 n /\
    Z.of_nat (length bs) <= Z.max 0 count /\
    (0 <= pos -> pos + Z.of_nat (length bs) <= Z.of_nat (length arr) ->
     arr' = take (Z.to_nat pos) arr ++ bs
            ++ drop (Z.to_nat pos + length bs) arr /\
     stray w' = stray w).
Proof.
  unfold read.
  destruct (read_completion (head (pending w)) count (rx w))
    as [[wait n0] bs] eqn:Hc.
  match goal with |- context [store_bytes arr pos bs ?w1] => set (wa := w1) end.
  destruct (store_bytes arr pos bs wa) as [arr1 w2] eqn:Hst.
  intros H. injection H as -> -> ->.
  pose proof (store_bytes_frame bs arr pos wa) as Hf. rewrite Hst in Hf.
  destruct Hf as (_ & _ & Hrx & _). cbn in Hrx.
  assert (Hbs : rx w = bs ++ drop (length bs) (rx w) /\
                Z.of_nat (length bs) = Z.max 0 n /\
                Z.of_nat (length bs) <= Z.max 0 count).
  { unfold read_completion in Hc.
    destruct (head (pending w)) as [[wait' avail|wait'|wait']|];
      injection Hc as <- <- <-; cbn [length]; try (repeat split; reflexivity || lia).
    split; [symmetry; apply take_drop_taken|].
    split; [lia|]. rewrite length_take. lia. }
  exists bs. destruct Hbs as (H1 & H2 & H3).
  split; [now rewrite Hrx|]. split; [exact H2|]. split; [exact H3|].
  intros Hpos Hfit. rewrite store_bytes_inside in Hst by assumption.
  injection Hst as <- <-. split; reflexivity.
Qed.

(** A [true] from the loop means: exactly the missing bytes were taken
    off the stream and stored behind those already there, and nothing
    was stored outside the array. *)
Lemma wait_for_payload_loop_exact fuel :
  forall arr off buffer_size payload_size start_time total w arr' w',
    0 <= off -> 0 <= total <= payload_size -> payload_size < 2 ^ 64 ->
    off + buffer_size <= Z.of_nat (length arr) ->
    wait_for_payload_loop fuel arr off buffer_size payload_size start_time
      total w = Returned (true, arr') w' ->
    exists bs,
      rx w = bs ++ rx w' /\
      Z.of_nat (length bs) = payload_size - total /\
      arr' = take (Z.to_nat (off + total)) arr ++ bs
             ++ drop (Z.to_nat (off + payload_size)) arr /\
      stray w' = stray w.
Proof.
  induction fuel as [|fuel IH];
    intros arr off bsz psz st total w arr' w' Hoff Htot Hpsz Hcap Hrun.
  - discriminate Hrun.
  - cbn [wait_for_payload_loop] in Hrun.
    destruct (total <? psz) eqn:Hlt.
    2:{ apply Z.ltb_ge in Hlt. injection Hrun as <- <-.
        assert (total = psz) by lia. subst total.
        exists []. cbn [app length]. repeat split; try lia.
        now rewrite take_drop. }
    apply Z.ltb_lt in Hlt.
    unfold bind at 1 in Hrun. unfold get_world in Hrun.
    destruct (now w - st >? MAX_DURATION); [discriminate Hrun|].
    unfold bind at 1 in Hrun.
    assert (Hcount : size_t (psz - total) = psz - total)
      by (apply size_t_small; lia).
    rewrite Hcount in Hrun.
    destruct (read arr (off + total) (psz - total) w) as [[n arr1] w1| | |] eqn:Hread;
      try discriminate Hrun.
    destruct (read_stores _ _ _ _ _ _ _ Hread) as (bs1 & Hrx1 & Hlen1 & Hle1 & Hin1).
    destruct (n <=? 0) eqn:Hn; [discriminate Hrun|].
    apply Z.leb_gt in Hn.
    replace (n >? 0) with true in Hrun by (symmetry; apply Z.gtb_lt; lia).
    cbn [andb] in Hrun.
    assert (Hsum : size_t (n + total) = n + total) by (apply size_t_small; lia).
    rewrite Hsum in Hrun.
    destruct (Z.gtb_spec (n + total) bsz) as [|Hfit]; [discriminate Hrun|].
    rewrite (Z.add_comm total n), Hsum in Hrun.
    destruct Hin1 as (Harr1 & Hstray1); [lia | lia |].
    assert (Hlen_arr1 : length arr1 = length arr).
    { rewrite Harr1, !length_app, length_take, length_drop. lia. }
    destruct (IH arr1 off bsz psz st (n + total) w1 arr' w' Hoff ltac:(lia) Hpsz
                ltac:(lia) Hrun) as (bs2 & Hrx2 & Hlen2 & Harr' & Hstray2).
    exists (bs1 ++ bs2).
    split; [rewrite Hrx1, Hrx2; now rewrite app_assoc|].
    split; [rewrite length_app; lia|].
    split; [|congruence].
    rewrite Harr'. rewrite <- !app_assoc.
    assert (Hp : length (take (Z.to_nat (off + total)) arr) = Z.to_nat (off + total))
      by (rewrite length_take; lia).
    assert (Hsplit : arr1 = (take (Z.to_nat (off + total)) arr ++ bs1)
                            ++ drop (Z.to_nat (off + total) + length bs1) arr)
      by (rewrite Harr1; now rewrite app_assoc).
    rewrite Hsplit at 1.
    rewrite take_app_length' by (rewrite length_app; lia).
    rewrite <- app_assoc. do 3 f_equal.
    rewrite Hsplit.
    rewrite drop_app_ge by (rewrite length_app; lia).
    rewrite drop_drop. f_equal. rewrite length_app. lia.
Qed.

Lemma wait_for_payload_exact arr off buffer_size payload_size w arr' w' :
  0 <= off -> 0 <= payload_size < 2 ^ 64 ->
  off + buffer_size <= Z.of_nat (length arr) ->
  wait_for_payload arr off buffer_size payload_size w = Returned (true, arr') w' ->
  exists bs,
    rx w = bs ++ rx w' /\
    Z.of_nat (length bs) = payload_size /\
    arr' = take (Z.to_nat off) arr ++ bs
           ++ drop (Z.to_nat (off + payload_size)) arr /\
    stray w' = stray w.
Proof.
  intros Hoff Hpsz Hcap Hrun. unfold wait_for_payload in Hrun.
  apply wait_for_payload_loop_exact in Hrun; try lia.
  destruct Hrun as (bs & Hrx & Hlen & Harr & Hstray).
  exists bs. rewrite Z.sub_0_r in Hlen. rewrite Z.add_0_r in Harr.
  repeat split; assumption.
Qed.

Lemma automatic_buffer_length : length automatic_buffer = 512%nat.
Proof. reflexivity. Qed.

(** What a successful receive has done, in full. *)
Lemma received_packet_front P w w' :
  0 < sizeof_system_header_packet_t P <= MAX_PAYLOAD_SIZE ->
  process_incoming_packets P w = Returned true w' ->
  exists bytes,
    rx w = bytes ++ rx w' /\
    Z.of_nat (length bytes)
    = size_t (payload_length_of P
                (take (Z.to_nat (sizeof_system_header_packet_t P)) bytes)) /\
    sizeof_system_header_packet_t P <= Z.of_nat (length bytes)
      <= MAX_PAYLOAD_SIZE /\
    packet_size (packet_entries w !!! 0%nat) = 0 /\
    packet_entries w'
    = <[0%nat := {| packet := bytes ++ drop (length bytes)
                                        (packet (packet_entries w !!! 0%nat));
                    packet_size := Z.of_nat (length bytes) |}]>
        (packet_entries w) /\
    stray w' = stray w.
Proof.
  unfold MAX_PAYLOAD_SIZE. intros Hh Hrun.
  set (h := sizeof_system_header_packet_t P) in *.
  destruct (process_incoming_packets_path P w)
    as [b w1 Hhdr | b1 w1 b2 w2 Hhdr Hpay | b1 w1 b2 w2 Hhdr Hpay];
    try discriminate Hrun.
  fold h in Hpay. unfold MAX_PAYLOAD_SIZE in *.
  pose proof (wait_for_payload_inv _ _ _ _ _ _ _ _ Hhdr) as (He1 & _).
  pose proof (wait_for_payload_inv _ _ _ _ _ _ _ _ Hpay) as (He2 & _ & _ & Hfit).
  specialize (Hfit eq_refl).
  unfold wait_for_system_header in Hhdr. fold h in Hhdr.
  apply wait_for_payload_exact in Hhdr;
    [| lia | lia | rewrite automatic_buffer_length; lia].
  destruct Hhdr as (bs1 & Hrx1 & Hlen1 & Hb1 & Hstray1).
  rewrite Z.add_0_l in Hb1.
  change (take (Z.to_nat 0) automatic_buffer) with (@nil Z) in Hb1.
  cbn [app] in Hb1.
  assert (Hb1len : length b1 = 512%nat).
  { rewrite Hb1, length_app, length_drop, automatic_buffer_length. lia. }
  assert (Hhead : take (Z.to_nat h) b1 = bs1).
  { rewrite Hb1. apply take_app_length'. lia. }
  set (L := declared_length P b1) in *.
  assert (HL : 0 <= L < 2 ^ 64) by apply size_t_range.
  assert (HLdef : L = size_t (payload_length_of P bs1)).
  { subst L. unfold declared_length. fold h. now rewrite Hhead. }
  assert (Hbs : size_t (512 - h) = 512 - h) by (apply size_t_small; lia).
  rewrite Hbs in Hfit, Hpay.
  assert (HLh : h <= L <= 512).
  { destruct (Z.lt_ge_cases L h) as [Hlt|Hge].
    - rewrite size_t_borrow in Hfit by lia. lia.
    - rewrite size_t_small in Hfit by lia. lia. }
  assert (Hrem : size_t (L - h) = L - h) by (apply size_t_small; lia).
  rewrite Hrem in Hpay.
  apply wait_for_payload_exact in Hpay; [| lia | lia | lia].
  destruct Hpay as (bs2 & Hrx2 & Hlen2 & Hb2 & Hstray2).
  rewrite Hhead in Hb2. replace (h + (L - h)) with L in Hb2 by lia.
  rewrite He2, He1 in Hrun.
  destruct (packet_size (packet_entries w !!! 0%nat) =? 0) eqn:Hempty;
    [|discriminate Hrun].
  apply Z.eqb_eq in Hempty. injection Hrun as <-.
  exists (bs1 ++ bs2).
  assert (Hlen : Z.of_nat (length (bs1 ++ bs2)) = L) by (rewrite length_app; lia).
  split; [rewrite Hrx1, Hrx2; now rewrite app_assoc|].
  split.
  { rewrite Hlen, HLdef. do 2 f_equal. symmetry. apply take_app_length'. lia. }
  split; [lia|]. split; [exact Hempty|].
  split; [|cbn; congruence].
  cbn [packet_entries with_packet_entries]. do 2 f_equal; [|lia].
  unfold memcpy. f_equal.
  - rewrite Hb2, app_assoc. apply take_app_length'. lia.
  - f_equal. lia.
Qed.

(** The two phases decide the call. *)
Lemma completed_receive_result P w buffer1 w1 buffer2 w2 :
  header_phase P w = Returned (true, buffer1) w1 ->
  payload_phase P buffer1 w1 = Returned (true, buffer2) w2 ->
  process_incoming_packets P w
  = if packet_size (packet_entries w2 !!! 0%nat) =? 0
    then Returned true
           (with_packet_entries
              (<[0%nat :=
                   {| packet := memcpy (packet (packet_entries w2 !!! 0%nat))
                                  buffer2 (declared_length P buffer1);
                      packet_size := declared_length P buffer1 |}]>
                 (packet_entries w2)) w2)
    else AssertionFailed w2.
Proof.
  unfold header_phase, payload_phase. intros Hhdr Hpay.
  unfold process_incoming_packets. unfold bind at 1.
  rewrite Hhdr. cbn [negb]. fold (declared_length P buffer1).
  unfold bind at 1. rewrite Hpay. cbn [negb].
  unfold bind, get_world, assert.
  destruct (packet_size (packet_entries w2 !!! 0%nat) =? 0); reflexivity.
Qed.

(** A receive whose two phases both return [true] has stored nothing
    outside the buffer and has not touched the catalog; the length it
    read lies between the header size and 512. *)
Lemma completed_receive_in_bounds P w buffer1 w1 buffer2 w2 :
  0 < sizeof_system_header_packet_t P <= MAX_PAYLOAD_SIZE ->
  header_phase P w = Returned (true, buffer1) w1 ->
  payload_phase P buffer1 w1 = Returned (true, buffer2) w2 ->
  packet_entries w2 = packet_entries w /\ stray w2 = stray w /\
  sizeof_system_header_packet_t P <= declared_length P buffer1
    <= MAX_PAYLOAD_SIZE.
Proof.
  unfold header_phase, payload_phase, MAX_PAYLOAD_SIZE. intros Hh Hhdr Hpay.
  set (h := sizeof_system_header_packet_t P) in *.
  pose proof (wait_for_payload_inv _ _ _ _ _ _ _ _ Hhdr) as (He1 & _).
  pose proof (wait_for_payload_inv _ _ _ _ _ _ _ _ Hpay) as (He2 & _ & _ & Hfit).
  specialize (Hfit eq_refl).
  unfold wait_for_system_header in Hhdr. fold h in Hhdr.
  apply wait_for_payload_exact in Hhdr;
    [| lia | lia | rewrite automatic_buffer_length; lia].
  destruct Hhdr as (bs1 & _ & Hlen1 & Hb1 & Hstray1).
  assert (Hb1len : length buffer1 = 512%nat).
  { rewrite Hb1, !length_app, length_take, length_drop, automatic_buffer_length.
    lia. }
  set (L := declared_length P buffer1) in *.
  assert (HL : 0 <= L < 2 ^ 64) by apply size_t_range.
  assert (Hbs : size_t (512 - h) = 512 - h) by (apply size_t_small; lia).
  rewrite Hbs in Hfit, Hpay.
  assert (HLh : h <= L <= 512).
  { destruct (Z.lt_ge_cases L h) as [Hlt|Hge].
    - rewrite size_t_borrow in Hfit by lia. lia.
    - rewrite size_t_small in Hfit by lia. lia. }
  assert (Hrem : size_t (L - h) = L - h) by (apply size_t_small; lia).
  rewrite Hrem in Hpay.
  apply wait_for_payload_exact in Hpay; [| lia | lia | lia].
  destruct Hpay as (bs2 & _ & _ & _ & Hstray2).
  split; [congruence|]. split; [congruence | exact HLh].
Qed.

(** The call dies in the assertion only after both phases have
    returned [true]. *)
Lemma assertion_after_completed_receive P w w' :
  process_incoming_packets P w = AssertionFailed w' ->
  exists buffer1 w1 buffer2,
    header_phase P w = Returned (true, buffer1) w1 /\
    payload_phase P buffer1 w1 = Returned (true, buffer2) w'.
Proof.
  intros Hrun.
  pose proof (process_incoming_packets_path P w) as Hpath.
  rewrite Hrun in Hpath.
  inversion Hpath as [ | | b1 w1 b2 w2 Hhdr Hpay Heq].
  destruct (packet_size (packet_entries w2 !!! 0%nat) =? 0);
    [discriminate Heq|].
  injection Heq as ->.
  exists b1, w1, b2. split; assumption.
Qed.

(** ** Sending *)

Lemma write_then_report pkt count w :
  sends ((n <- write pkt count ;; ret (negb (n =? -1))) w) w pkt count.
Proof.
  unfold sends, bind, write, ret.
  do 3 eexists. split; [reflexivity|]. cbn.
  repeat split.
  intros Hh. destruct (tx w) as [|[] ?]; cbn in Hh; congruence.
Qed.

(** ** Oversized packets *)

(** The part of the guard that works: a declared length above the
    buffer size never makes [process_incoming_packets] return [true]. *)
Lemma oversize_length_is_rejected P w buffer1 w1 :
  0 < sizeof_system_header_packet_t P <= MAX_PAYLOAD_SIZE ->
  wait_for_system_header P automatic_buffer 0 MAX_PAYLOAD_SIZE w
    = Returned (true, buffer1) w1 ->
  MAX_PAYLOAD_SIZE < declared_length P buffer1 ->
  exists w', process_incoming_packets P w = Returned false w'.
Proof.
  unfold MAX_PAYLOAD_SIZE. intros Hh Hhdr Hlen.
  pose proof (size_t_range (payload_length_of P
    (take (Z.to_nat (sizeof_system_header_packet_t P)) buffer1))) as HL.
  fold (declared_length P buffer1) in HL.
  destruct (process_incoming_packets_path P w)
    as [b w1' Hh' | b1 w1' b2 w2 Hh' Hp | b1 w1' b2 w2 Hh' Hp].
  - eauto.
  - eauto.
  - exfalso. unfold MAX_PAYLOAD_SIZE in *.
    rewrite Hhdr in Hh'. injection Hh' as <- <-.
    apply wait_for_payload_inv in Hp. destruct Hp as (_ & _ & _ & Hfit).
    specialize (Hfit eq_refl).
    rewrite !size_t_small in Hfit by lia. lia.
Qed.

(** C1 -- the overflow guard of [wait_for_payload] runs after [read] has
    stored the bytes.  A call for 8 bytes into a 4-byte array returns
    [false] with 4 bytes stored past the end; a packet that declares 600
    bytes makes [process_incoming_packets] return [false] with the bytes
    512..599 stored past the end of its 512-byte buffer. *)
Theorem overflow_guard_runs_after_the_store :
  (exists w',
     wait_for_payload [0; 0; 0; 0] 0 4 8
       (receiving_world [Data 0 8] [1; 2; 3; 4; 5; 6; 7; 8])
     = Returned (false, [1; 2; 3; 4]) w' /\
     stray w' = [(4, 5); (5, 6); (6, 7); (7, 8)]) /\
  (exists w',
     process_incoming_packets sample_platform oversize_world
     = Returned false w' /\
     trace w' = [sys_read 4 4; sys_read 596 596] /\
     map fst (stray w') = map Z.of_nat (seq 512 88)).
Proof.
  split.
  - eexists. split; vm_compute; reflexivity.
  - exists (default oversize_world
              (final_world (process_incoming_packets sample_platform
                              oversize_world))).
    vm_compute. repeat split; reflexivity.
Qed.

(** ** CXL.io memory writes *)

Lemma hdr_length_4 : u16 (round_up_to_nearest_dword (u32 4) / 4) = 1.
Proof. reflexivity. Qed.

Lemma hdr_length_8 : u16 (round_up_to_nearest_dword (u32 8) / 4) = 2.
Proof. reflexivity. Qed.

(** An 8-byte write of anything but all-ones goes out as the 64-bit
    variant with the value as it is. *)
Lemma mem_write_64 P hpa val w :
  val < 0xFFFFFFFFFFFFFFFF ->
  (send_cxl_io_mem_write P hpa val 8 w).1 = 0 /\
  sends (send_cxl_io_mem_write P hpa val 8 w).2 w
    (cxl_io_mem_wr_packet_64b
       {| payload_type := CXL_IO;
          payload_length := sizeof_cxl_io_mem_wr_packet_64b_t P |}
       {| fmt_type := MWR_64B; length_upper := 0; length_lower := 2 |}
       (mreq_header_of P hpa 0) val)
    (sizeof_cxl_io_mem_wr_packet_64b_t P).
Proof.
  intros Hval. split; [reflexivity|].
  unfold send_cxl_io_mem_write. cbn [snd].
  change (Z.rem 8 4 =? 0) with true. change (8 >? 4) with true.
  change (8 =? 8) with true.
  unfold bind at 1, assert at 1. unfold bind at 1, assert at 1.
  unfold bind at 1, assert at 1.
  replace (val <? 18446744073709551615) with true
    by (symmetry; apply Z.ltb_lt; lia).
  rewrite hdr_length_8.
  apply write_then_report.
Qed.

(** A 4-byte write of a value below all-ones goes out as the 32-bit
    variant with the value as it is. *)
Lemma mem_write_32 P hpa val w :
  0 <= val < 0xFFFFFFFF ->
  (send_cxl_io_mem_write P hpa val 4 w).1 = 0 /\
  sends (send_cxl_io_mem_write P hpa val 4 w).2 w
    (cxl_io_mem_wr_packet_32b
       {| payload_type := CXL_IO;
          payload_length := sizeof_cxl_io_mem_wr_packet_32b_t P |}
       {| fmt_type := MWR_32B; length_upper := 0; length_lower := 1 |}
       (mreq_header_of P hpa 0) val)
    (sizeof_cxl_io_mem_wr_packet_32b_t P).
Proof.
  intros Hval. split; [reflexivity|].
  unfold send_cxl_io_mem_write. cbn [snd].
  change (Z.rem 4 4 =? 0) with true. change (4 >? 4) with false.
  change (4 =? 4) with true.
  unfold bind at 1, assert at 1. unfold bind at 1, assert at 1.
  unfold bind at 1, assert at 1.
  replace (val <? 4294967295) with true by (symmetry; apply Z.ltb_lt; lia).
  rewrite hdr_length_4.
  replace (u32 (Z.land val 4294967295)) with val.
  - apply write_then_report.
  - change 4294967295 with (Z.ones 32). rewrite Z.land_ones by lia.
    unfold u32, wrap. rewrite Z.mod_mod by lia.
    symmetry. apply Z.mod_small. lia.
Qed.

(** Sizes other than 4 and 8 end in one of the assertions. *)
Lemma mem_write_other_size P hpa val size w :
  size <> 4 -> size <> 8 ->
  (send_cxl_io_mem_write P hpa val size w).2 = AssertionFailed w.
Proof.
  intros H4 H8. unfold send_cxl_io_mem_write. cbn [snd].
  unfold bind at 1, assert at 1.
  destruct (Z.rem size 4 =? 0); [|reflexivity].
  destruct (size >? 4).
  - unfold bind at 1, assert at 1.
    destruct (Z.eqb_spec size 8); [contradiction | reflexivity].
  - unfold bind at 1, assert at 1.
    destruct (Z.eqb_spec size 4); [contradiction | reflexivity].
Qed.

(** C2 -- a write of [0xFFFFFFFF]: with size 8 the 64-bit variant goes
    out with [data = 0xFFFFFFFF]; with size 4 the call dies in
    [assert (val < 0xFFFFFFFF)] and nothing is sent. *)
Theorem mem_write_all_ones_32_dies P hpa w :
  sends (send_cxl_io_mem_write P hpa 0xFFFFFFFF 8 w).2 w
    (cxl_io_mem_wr_packet_64b
       {| payload_type := CXL_IO;
          payload_length := sizeof_cxl_io_mem_wr_packet_64b_t P |}
       {| fmt_type := MWR_64B; length_upper := 0; length_lower := 2 |}
       (mreq_header_of P hpa 0) 0xFFFFFFFF)
    (sizeof_cxl_io_mem_wr_packet_64b_t P) /\
  send_cxl_io_mem_write P hpa 0xFFFFFFFF 4 w = (0, AssertionFailed w).
Proof.
  split.
  - apply mem_write_64. lia.
  - reflexivity.
Qed.

(** ** Configuration requests *)

(** C3 -- [fill_cxl_io_cfg_req_packet] refuses an offset beyond the
    configuration space and an access across a dword boundary, but both
    senders drop its result: the packet goes to [write] all the same,
    with a zero request header, and the caller is told whatever [write]
    said. *)
Theorem rejected_config_request_is_sent_anyway P bdf val type0 w :
  fill_cxl_io_cfg_req_packet P zero_cfg_req_header bdf 0x1000 4 0 0
    = (false, zero_cfg_req_header) /\
  fill_cxl_io_cfg_req_packet P zero_cfg_req_header bdf 0x3 2 0 0
    = (false, zero_cfg_req_header) /\
  sends (send_cxl_io_config_space_read P bdf 0x1000 4 type0 w).2 w
    (cxl_io_cfg_rd_packet
       {| payload_type := CXL_IO;
          payload_length := sizeof_cxl_io_cfg_rd_packet_t P |}
       {| fmt_type := if type0 then CFG_RD0 else CFG_RD1;
          length_upper := 0; length_lower := 1 |}
       zero_cfg_req_header)
    (sizeof_cxl_io_cfg_rd_packet_t P) /\
  sends (send_cxl_io_config_space_read P bdf 0x3 2 type0 w).2 w
    (cxl_io_cfg_rd_packet
       {| payload_type := CXL_IO;
          payload_length := sizeof_cxl_io_cfg_rd_packet_t P |}
       {| fmt_type := if type0 then CFG_RD0 else CFG_RD1;
          length_upper := 0; length_lower := 1 |}
       zero_cfg_req_header)
    (sizeof_cxl_io_cfg_rd_packet_t P) /\
  sends (send_cxl_io_config_space_write P bdf 0x1000 val 4 type0 w).2 w
    (cxl_io_cfg_wr_packet
       {| payload_type := CXL_IO;
          payload_length := sizeof_cxl_io_cfg_wr_packet_t P |}
       {| fmt_type := if type0 then CFG_WR0 else CFG_WR1;
          length_upper := 0; length_lower := 1 |}
       zero_cfg_req_header val)
    (sizeof_cxl_io_cfg_wr_packet_t P) /\
  (exists w',
     send_cxl_io_config_space_read sample_platform 0 0x1000 4 true
       (idle_world 1) = (0, Returned true w') /\
     length (trace w') = 1%nat).
Proof.
  repeat split.
  - apply write_then_report.
  - apply write_then_report.
  - apply write_then_report.
  - eexists. split; vm_compute; reflexivity.
Qed.

(** ** The store into the catalog *)

(** C4 -- a populated slot is never overwritten.  With slot 0, the one
    slot packets are stored into, populated, a receive that has read a
    whole packet dies in the assertion, the catalog as it was and
    nothing stored outside the buffer.  Whatever slot [tag] is
    populated, a call that returns with nothing stored outside the
    buffer leaves it as it is, and when it is slot 0 the call has
    returned [false], the catalog untouched; a call that dies in the
    assertion has changed nothing in the catalog. *)
Theorem occupied_slot_is_never_overwritten P w (tag : nat) :
  0 < sizeof_system_header_packet_t P <= MAX_PAYLOAD_SIZE ->
  packet_size (packet_entries w !!! tag) <> 0 ->
  (forall buffer1 w1 buffer2 w2,
     tag = 0%nat ->
     header_phase P w = Returned (true, buffer1) w1 ->
     payload_phase P buffer1 w1 = Returned (true, buffer2) w2 ->
     process_incoming_packets P w = AssertionFailed w2 /\
     packet_entries w2 = packet_entries w /\ stray w2 = stray w) /\
  (forall ok w',
     process_incoming_packets P w = Returned ok w' ->
     stray w' = stray w ->
     packet_entries w' !!! tag = packet_entries w !!! tag /\
     (tag = 0%nat -> ok = false /\ packet_entries w' = packet_entries w)) /\
  (forall w',
     process_incoming_packets P w = AssertionFailed w' ->
     packet_entries w' = packet_entries w /\ stray w' = stray w /\
     packet_size (packet_entries w !!! 0%nat) <> 0).
Proof.
  intros Hh Hpop.
  pose proof (process_incoming_packets_catalog P w) as Hc.
  split; [|split].
  - intros b1 w1 b2 w2 -> Hhdr Hpay.
    destruct (completed_receive_in_bounds P w b1 w1 b2 w2 Hh Hhdr Hpay)
      as (He & Hs & _).
    rewrite (completed_receive_result P w b1 w1 b2 w2 Hhdr Hpay), He.
    destruct (Z.eqb_spec (packet_size (packet_entries w !!! 0%nat)) 0)
      as [Hz|_]; [contradiction|].
    repeat split; assumption.
  - intros ok w' Hrun _. rewrite Hrun in Hc. destruct ok.
    + destruct Hc as (Hempty & b1 & b2 & _ & Hnew). split.
      * rewrite Hnew. apply list_lookup_total_insert_ne. congruence.
      * intros ->. contradiction.
    + split; [now rewrite Hc | intros _; split; [reflexivity | assumption]].
  - intros w' Hrun.
    destruct (assertion_after_completed_receive P w w' Hrun)
      as (b1 & w1 & b2 & Hhdr & Hpay).
    destruct (completed_receive_in_bounds P w b1 w1 b2 w' Hh Hhdr Hpay)
      as (He & Hs & _).
    rewrite Hrun in Hc. destruct Hc as (_ & Hne).
    repeat split; assumption.
Qed.

Lemma occupied_slot_is_never_overwritten_witness :
  packet_size (packet_entries one_packet_filed !!! 0%nat) = 12 /\
  exists w2,
    process_incoming_packets sample_platform one_packet_filed
      = AssertionFailed w2 /\
    rx w2 = [] /\
    packet_entries w2 = packet_entries one_packet_filed /\
    stray w2 = stray one_packet_filed.
Proof.
  assert (Hh : 0 < sizeof_system_header_packet_t sample_platform
               <= MAX_PAYLOAD_SIZE) by (vm_compute; split; congruence).
  assert (Hsize : packet_size (packet_entries one_packet_filed !!! 0%nat) = 12)
    by (vm_compute; reflexivity).
  assert (Hpop : packet_size (packet_entries one_packet_filed !!! 0%nat) <> 0)
    by (rewrite Hsize; discriminate).
  split; [exact Hsize|].
  pose (r1 := header_phase sample_platform one_packet_filed).
  pose (b1 := match r1 with Returned (_, b) _ => b | _ => [] end).
  pose (w1 := default one_packet_filed (final_world r1)).
  assert (Hhdr : header_phase sample_platform one_packet_filed
                 = Returned (true, b1) w1) by (vm_compute; reflexivity).
  pose (r2 := payload_phase sample_platform b1 w1).
  pose (b2 := match r2 with Returned (_, b) _ => b | _ => [] end).
  pose (w2 := default one_packet_filed (final_world r2)).
  assert (Hpay : payload_phase sample_platform b1 w1 = Returned (true, b2) w2)
    by (vm_compute; reflexivity).
  destruct (occupied_slot_is_never_overwritten sample_platform one_packet_filed
              0%nat Hh Hpop) as (Hdies & _).
  destruct (Hdies b1 w1 b2 w2 eq_refl Hhdr Hpay) as (Hrun & He & Hs).
  exists w2. split; [exact Hrun|].
  split; [vm_compute; reflexivity|]. split; assumption.
Defined.

(** ** Byte order *)

Lemma testbit_byte_high b i : is_byte b -> 8 <= i -> Z.testbit b i = false.
Proof.
  intros Hb Hi. rewrite <- (Z.mod_small b (2 ^ 8)) by (unfold is_byte in Hb; lia).
  apply Z.mod_pow2_bits_high. lia.
Qed.

Lemma low_byte_of_lor b r : is_byte b -> Z.land (Z.lor b (Z.shiftl r 8)) 255 = b.
Proof.
  intros Hb. apply Z.bits_inj'. intros i Hi.
  rewrite Z.land_spec, Z.lor_spec.
  change 255 with (Z.ones 8). rewrite Z.testbit_ones_nonneg by lia.
  destruct (Z.ltb_spec i 8).
  - rewrite Z.shiftl_spec_low by lia. now rewrite orb_false_r, andb_true_r.
  - rewrite andb_false_r. symmetry. now apply testbit_byte_high.
Qed.

Lemma high_bytes_of_lor b r : is_byte b -> Z.shiftr (Z.lor b (Z.shiftl r 8)) 8 = r.
Proof.
  intros Hb. rewrite Z.shiftr_lor.
  rewrite Z.shiftr_shiftl_l by lia. change (8 - 8) with 0. rewrite Z.shiftl_0_r.
  rewrite Z.shiftr_div_pow2 by lia.
  rewrite Z.div_small by (unfold is_byte in Hb; lia).
  apply Z.lor_0_l.
Qed.

Lemma bytes_le_of_bytes_le l :
  Forall is_byte l -> bytes_le (length l) (of_bytes_le l) = l.
Proof.
  induction 1 as [|b l Hb Hl IH]; cbn [length bytes_le of_bytes_le].
  - reflexivity.
  - rewrite low_byte_of_lor, high_bytes_of_lor by assumption.
    now rewrite IH.
Qed.

Lemma bytes_le_length n : forall x, length (bytes_le n x) = n.
Proof. induction n as [|n IH]; intros x; cbn; [reflexivity | now rewrite IH]. Qed.

Lemma bytes_le_are_bytes n : forall x, Forall is_byte (bytes_le n x).
Proof.
  induction n as [|n IH]; intros x; cbn [bytes_le]; constructor.
  - unfold is_byte. change 255 with (Z.ones 8).
    rewrite Z.land_ones by lia. apply Z.mod_pos_bound. lia.
  - apply IH.
Qed.

(** A byte swap lays the bytes out in the opposite order. *)
Lemma bytes_le_bswap n x : bytes_le n (bswap n x) = bytes_be n x.
Proof.
  unfold bswap, bytes_be.
  rewrite <- (bytes_le_length n x) at 1.
  rewrite <- length_rev.
  apply bytes_le_of_bytes_le.
  apply Forall_rev, bytes_le_are_bytes.
Qed.

(** Whatever the host, [htons] and [htonll] leave the value in memory
    most significant byte first. *)
Lemma htons_network_order P x :
  0 <= x < 2 ^ 16 -> field_bytes P 2 (htons P x) = bytes_be 2 x.
Proof.
  intros Hx. unfold field_bytes, htons.
  destruct (host_big_endian P).
  - unfold u16, wrap. now rewrite Z.mod_small.
  - apply bytes_le_bswap.
Qed.

Lemma htonll_network_order P x :
  0 <= x < 2 ^ 64 -> field_bytes P 8 (htonll P x) = bytes_be 8 x.
Proof.
  intros Hx. unfold field_bytes, htonll.
  destruct (host_big_endian P).
  - unfold u64, wrap. now rewrite Z.mod_small.
  - apply bytes_le_bswap.
Qed.

(** ** The byte-enable mask *)

Lemma byte_enable_loop_bits n : forall acc off i,
  0 <= i -> 0 <= off -> off + Z.of_nat n <= 8 -> is_byte acc ->
  Z.testbit (byte_enable_loop n acc off) i
  = Z.testbit acc i || ((off <=? i) && (i <? off + Z.of_nat n)).
Proof.
  induction n as [|n IH]; intros acc off i Hi Hoff Hn Hacc;
    cbn [byte_enable_loop].
  - replace ((off <=? i) && (i <? off + Z.of_nat 0)) with false
      by decide_comparisons.
    now rewrite orb_false_r.
  - assert (Hoff1 : u8 (off + 1) = off + 1).
    { unfold u8, wrap. apply Z.mod_small. lia. }
    rewrite Hoff1.
    rewrite IH; try lia.
    2:{ unfold is_byte, u8, wrap. apply Z.mod_pos_bound. lia. }
    unfold u8, wrap. rewrite Z.testbit_mod_pow2 by lia.
    rewrite Z.lor_spec, Z.shiftl_1_l, Z.pow2_bits_eqb by lia.
    destruct (Z.ltb_spec i 8).
    + cbn [andb]. destruct (Z.testbit acc i); cbn [orb]; [reflexivity|].
      decide_comparisons.
    + rewrite (testbit_byte_high acc i) by assumption. cbn [andb orb].
      decide_comparisons.
Qed.

Lemma low_two_bits_range x : 0 <= Z.land x 3 <= 3.
Proof.
  assert (H : Z.land x 3 = x mod 4) by (apply (Z.land_ones x 2); lia).
  rewrite H. pose proof (Z.mod_pos_bound x 4). lia.
Qed.

(** C5 -- the request header of a valid configuration access: the
    destination id is the bdf in network byte order, the register number
    is bits 7..2 of the offset, the extended register number is bits
    11..8, and the first-dword byte enable has one bit per byte touched,
    from lane [offset & 3] up; the system header carries the size of the
    struct.  Both senders transmit that header. *)
Theorem config_request_header_fields P bdf offset size val type0 w :
  0 <= bdf < 2 ^ 16 ->
  0 <= offset <= 0xFFF ->
  0 <= size ->
  Z.land offset 0x3 + size <= 4 ->
  exists hdr,
    fill_cxl_io_cfg_req_packet P zero_cfg_req_header bdf offset (u8 size) 0
      (u8 (get_next_tag tt)) = (true, hdr) /\
    dest_id hdr = htons P bdf /\
    field_bytes P 2 (dest_id hdr) = bytes_be 2 bdf /\
    (forall i, 0 <= i ->
       Z.testbit (reg_num hdr) i = (i <? 6) && Z.testbit offset (i + 2)) /\
    (forall i, 0 <= i ->
       Z.testbit (ext_reg_num hdr) i = (i <? 4) && Z.testbit offset (i + 8)) /\
    (forall i, 0 <= i ->
       Z.testbit (first_dw_be hdr) i
       = (Z.land offset 0x3 <=? i) && (i <? Z.land offset 0x3 + size)) /\
    sends (send_cxl_io_config_space_read P bdf offset size type0 w).2 w
      (cxl_io_cfg_rd_packet
         {| payload_type := CXL_IO;
            payload_length := sizeof_cxl_io_cfg_rd_packet_t P |}
         {| fmt_type := if type0 then CFG_RD0 else CFG_RD1;
            length_upper := 0; length_lower := 1 |}
         hdr)
      (sizeof_cxl_io_cfg_rd_packet_t P) /\
    sends (send_cxl_io_config_space_write P bdf offset val size type0 w).2 w
      (cxl_io_cfg_wr_packet
         {| payload_type := CXL_IO;
            payload_length := sizeof_cxl_io_cfg_wr_packet_t P |}
         {| fmt_type := if type0 then CFG_WR0 else CFG_WR1;
            length_upper := 0; length_lower := 1 |}
         hdr val)
      (sizeof_cxl_io_cfg_wr_packet_t P).
Proof.
  intros Hbdf Hoff Hsize Hfit.
  pose proof (low_two_bits_range offset) as Hlo.
  assert (Hsz : u8 size = size) by (unfold u8, wrap; apply Z.mod_small; lia).
  assert (Hlo8 : u8 (Z.land offset 3) = Z.land offset 3)
    by (unfold u8, wrap; apply Z.mod_small; lia).
  assert (Hfill :
    fill_cxl_io_cfg_req_packet P zero_cfg_req_header bdf offset (u8 size) 0
      (u8 (get_next_tag tt))
    = (true,
       {| cfg_req_id := htons P 0; cfg_tag := u8 (get_next_tag tt);
          first_dw_be := byte_enable_loop (Z.to_nat size) 0 (Z.land offset 3);
          last_dw_be := 0; dest_id := htons P bdf;
          ext_reg_num := Z.land (Z.shiftr offset 8) 0xF;
          reg_num := Z.land (Z.shiftr offset 2) 0x3F |})).
  { unfold fill_cxl_io_cfg_req_packet.
    rewrite (gtb_false offset) by lia.
    rewrite Hlo8, Hsz.
    rewrite (gtb_false (Z.land offset 3 + size)) by lia.
    reflexivity. }
  eexists. split; [exact Hfill|]. cbn [dest_id reg_num ext_reg_num first_dw_be].
  split; [reflexivity|].
  split; [now apply htons_network_order|].
  split.
  { intros i Hi. rewrite Z.land_spec, Z.shiftr_spec by lia.
    change 63 with (Z.ones 6). rewrite Z.testbit_ones_nonneg by lia.
    apply andb_comm. }
  split.
  { intros i Hi. rewrite Z.land_spec, Z.shiftr_spec by lia.
    change 15 with (Z.ones 4). rewrite Z.testbit_ones_nonneg by lia.
    apply andb_comm. }
  split.
  { intros i Hi. rewrite byte_enable_loop_bits; try lia.
    - rewrite Z.bits_0, Z2Nat.id by lia. reflexivity.
    - unfold is_byte. lia. }
  split.
  - unfold send_cxl_io_config_space_read. cbn [snd]. cbv zeta.
    rewrite Hfill. apply write_then_report.
  - unfold send_cxl_io_config_space_write. cbn [snd]. cbv zeta.
    rewrite Hfill. apply write_then_report.
Qed.

Lemma config_request_header_fields_witness :
  exists hdr,
    fill_cxl_io_cfg_req_packet sample_platform zero_cfg_req_header 0x1234 0x04
      (u8 2) 0 (u8 (get_next_tag tt)) = (true, hdr) /\
    first_dw_be hdr = 3 /\
    field_bytes sample_platform 2 (dest_id hdr) = [0x12; 0x34] /\
    reg_num hdr = 1 /\
    ext_reg_num hdr = 0 /\
    sends (send_cxl_io_config_space_read sample_platform 0x1234 0x04 2 true
             (idle_world 1)).2 (idle_world 1)
      (cxl_io_cfg_rd_packet
         {| payload_type := CXL_IO;
            payload_length := sizeof_cxl_io_cfg_rd_packet_t sample_platform |}
         {| fmt_type := CFG_RD0; length_upper := 0; length_lower := 1 |}
         hdr)
      (sizeof_cxl_io_cfg_rd_packet_t sample_platform).
Proof.
  assert (Hbdf : 0 <= 0x1234 < 2 ^ 16) by (vm_compute; split; congruence).
  assert (Hoff : 0 <= 0x04 <= 0xFFF) by lia.
  assert (Hsize : 0 <= 2) by lia.
  assert (Hfit : Z.land 0x04 0x3 + 2 <= 4) by (vm_compute; congruence).
  destruct (config_request_header_fields sample_platform 0x1234 0x04 2 0 true
              (idle_world 1) Hbdf Hoff Hsize Hfit)
    as (hdr & Hfill & _ & Hbytes & _ & _ & _ & Hrd & _).
  exists hdr. vm_compute in Hfill. injection Hfill as <-.
  repeat split; try reflexivity; try exact Hbytes; exact Hrd.
Defined.

(** ** Waiting for a reply *)

Lemma load_entry_valid tag w :
  0 <= tag < MAX_TAG ->
  load_entry (get_packet_entry tag) w
  = Returned (packet_entries w !!! Z.to_nat tag) w.
Proof.
  intros Htag. unfold get_packet_entry.
  replace (tag >=? MAX_TAG) with false
    by (symmetry; rewrite Z.geb_leb; apply Z.leb_gt; lia).
  reflexivity.
Qed.

(** A populated entry lies inside the table. *)
Lemma populated_in_range (t : list packet_table_entry_t) (i : nat) :
  packet_size (t !!! i) <> 0 -> (i < length t)%nat.
Proof.
  intros Hpop. destruct (decide (i < length t)%nat) as [|Hge]; [assumption|].
  exfalso. apply Hpop.
  rewrite list_lookup_total_alt, lookup_ge_None_2 by lia. reflexivity.
Qed.

(** A packet that has been received whole has a length other than 0. *)
Lemma received_length_nonzero P L :
  0 < sizeof_system_header_packet_t P <= MAX_PAYLOAD_SIZE ->
  0 <= L < 2 ^ 64 ->
  size_t (L - sizeof_system_header_packet_t P) <= 0 \/
  size_t (L - sizeof_system_header_packet_t P)
    <= size_t (MAX_PAYLOAD_SIZE - sizeof_system_header_packet_t P) ->
  L <> 0.
Proof.
  unfold MAX_PAYLOAD_SIZE. intros Hh HL Hfit ->.
  rewrite size_t_borrow in Hfit by lia.
  rewrite (size_t_small (512 - _)) in Hfit by lia.
  lia.
Qed.

(** A second receive after one that stored a packet cannot store
    another, and the first touched slot 0 only. *)
Lemma after_a_stored_packet P w w1 :
  0 < sizeof_system_header_packet_t P <= MAX_PAYLOAD_SIZE ->
  (0 < length (packet_entries w))%nat ->
  process_incoming_packets P w = Returned true w1 ->
  (forall i, i <> 0%nat -> packet_entries w1 !!! i = packet_entries w !!! i) /\
  fails_or_dies false (process_incoming_packets P w1).
Proof.
  intros Hh Hlen Hrun.
  pose proof (process_incoming_packets_catalog P w) as Hc. rewrite Hrun in Hc.
  destruct Hc as (Hempty & b1 & b2 & Hfit & Hnew). cbn zeta in Hfit, Hnew.
  split.
  - intros i Hi. rewrite Hnew. apply list_lookup_total_insert_ne. congruence.
  - assert (Hfull : packet_size (packet_entries w1 !!! 0%nat) <> 0).
    { rewrite Hnew, list_lookup_total_insert_eq by assumption. cbn [packet_size].
      apply (received_length_nonzero P); [assumption | apply size_t_range | assumption]. }
    pose proof (process_incoming_packets_catalog P w1) as Hc1.
    destruct (process_incoming_packets P w1) as [[|] w2|w2|w2|]; cbn;
      try tauto.
Qed.

Lemma receive_fails_or_returns P w :
  match process_incoming_packets P w with
  | NullDeref _ | OutOfFuel => False
  | _ => True
  end.
Proof.
  pose proof (process_incoming_packets_catalog P w) as Hc.
  destruct (process_incoming_packets P w) as [[|] ?|?|?|]; tauto.
Qed.

(** Each wait, finding nothing it can return under [tag], goes one round. *)
Lemma wait_for_sized_packet_round P expected tag fuel w :
  0 <= tag < MAX_TAG ->
  packet_size (packet_entries w !!! Z.to_nat tag) <> expected ->
  wait_for_sized_packet P (S fuel) expected tag w
  = one_round P None (wait_for_sized_packet P fuel expected tag) w.
Proof.
  intros Htag Hne. cbn [wait_for_sized_packet]. unfold bind at 1.
  rewrite load_entry_valid by assumption.
  destruct (Z.eqb_spec (packet_size (packet_entries w !!! Z.to_nat tag)) expected)
    as [|_]; [contradiction|].
  unfold bind, one_round.
  destruct (process_incoming_packets P w) as [[|] ?|?|?|]; reflexivity.
Qed.

Lemma wait_for_cxl_io_completion_round P tag fuel w :
  0 <= tag < MAX_TAG ->
  packet_size (packet_entries w !!! Z.to_nat tag) <= 0 ->
  wait_for_cxl_io_completion P (S fuel) tag w
  = one_round P None (wait_for_cxl_io_completion P fuel tag) w.
Proof.
  intros Htag Hle. cbn [wait_for_cxl_io_completion]. unfold bind at 1.
  rewrite load_entry_valid by assumption.
  rewrite (gtb_false _ _ Hle).
  unfold bind, one_round.
  destruct (process_incoming_packets P w) as [[|] ?|?|?|]; reflexivity.
Qed.

Lemma wait_for_cxl_io_completion_data_round P tag data_is_null fuel w :
  0 <= tag < MAX_TAG ->
  packet_size (packet_entries w !!! Z.to_nat tag) <= 0 ->
  wait_for_cxl_io_completion_data P (S fuel) tag data_is_null w
  = one_round P (0, None)
      (wait_for_cxl_io_completion_data P fuel tag data_is_null) w.
Proof.
  intros Htag Hle. cbn [wait_for_cxl_io_completion_data]. unfold bind at 1.
  rewrite load_entry_valid by assumption.
  rewrite (gtb_false _ _ Hle).
  unfold bind, one_round.
  destruct (process_incoming_packets P w) as [[|] ?|?|?|]; reflexivity.
Qed.

Lemma wait_for_cxl_io_cfg_completion_round P tag data_is_null fuel w :
  0 <= tag < MAX_TAG ->
  packet_size (packet_entries w !!! Z.to_nat tag) <= 0 ->
  wait_for_cxl_io_cfg_completion P (S fuel) tag data_is_null w
  = one_round P None
      (wait_for_cxl_io_cfg_completion P fuel tag data_is_null) w.
Proof.
  intros Htag Hle. cbn [wait_for_cxl_io_cfg_completion]. unfold bind at 1.
  rewrite load_entry_valid by assumption.
  rewrite (gtb_false _ _ Hle).
  unfold bind, one_round.
  destruct (process_incoming_packets P w) as [[|] ?|?|?|]; reflexivity.
Qed.

(** A wait that goes round as long as the entry under [tag] is not what
    it waits for, started on such an entry: packets are filed under tag
    0 only and never over a populated slot, so within two rounds it has
    given up or died. *)
Lemma wait_receives_and_gives_up {A} P (failure : A) (W : nat -> M A)
    (waiting : packet_table_entry_t -> Prop) tag fuel w :
  (forall f w', waiting (packet_entries w' !!! Z.to_nat tag) ->
     W (S f) w' = one_round P failure (W f) w') ->
  0 < sizeof_system_header_packet_t P <= MAX_PAYLOAD_SIZE ->
  0 <= tag < MAX_TAG ->
  (0 < length (packet_entries w))%nat ->
  waiting (packet_entries w !!! Z.to_nat tag) ->
  (tag = 0 -> packet_size (packet_entries w !!! 0%nat) <> 0) ->
  receives_and_gives_up P failure tag w (W (S (S fuel)) w).
Proof.
  intros Hround Hh Htag Hlen Hwait Hzero.
  unfold receives_and_gives_up, ends_with_receive.
  rewrite (Hround (S fuel) w Hwait). unfold one_round.
  pose proof (receive_fails_or_returns P w) as Hr.
  pose proof (process_incoming_packets_catalog P w) as Hc.
  destruct (process_incoming_packets P w) as [[|] w1|w1|w1|] eqn:Hrun;
    try exact Hr.
  - destruct Hc as (Hempty & _).
    assert (Hne : tag <> 0) by (intros ->; now apply Hzero).
    split; [exact Hne|].
    destruct (after_a_stored_packet P w w1 Hh Hlen Hrun) as (Hsame & Hnext).
    rewrite (Hround fuel w1) by (rewrite Hsame by lia; exact Hwait).
    unfold one_round.
    pose proof (receive_fails_or_returns P w1) as Hr1.
    destruct (process_incoming_packets P w1) as [[|] w2|w2|w2|];
      cbn in Hnext; try exact Hr1.
    + discriminate Hnext.
    + intros _. reflexivity.
    + reflexivity.
  - intros _. reflexivity.
  - reflexivity.
Qed.

(** C6, as stated, fails for the CXL.mem wait: the entry under tag 0
    holds 12 bytes, a no-data response has 10, and the wait returns
    [NULL] without any assertion. *)
Lemma mem_completion_mismatch_returns_null :
  packet_size (packet_entries stale_reply_world !!! 0%nat) <> 0 /\
  packet_size (packet_entries stale_reply_world !!! 0%nat)
    <> sizeof_cxl_mem_s2m_ndr_packet_t sample_platform /\
  exists w',
    wait_for_cxl_mem_completion sample_platform 2 0 stale_reply_world
    = Returned None w'.
Proof.
  split; [vm_compute; discriminate|].
  split; [vm_compute; discriminate|].
  exists (default (idle_world 0)
            (final_world (wait_for_cxl_mem_completion sample_platform 2 0
                            stale_reply_world))).
  vm_compute. reflexivity.
Qed.

(** C6, amended -- with a populated entry of a size the wait does not
    accept under [tag], the CXL.io completion waits die in their
    assertion at once.  The sideband and CXL.mem waits have no such
    assertion: they leave the entry and try to receive another packet.
    When that receive fails, nothing stored outside its buffer, they
    return [NULL]; when it reads a whole packet while slot 0 is
    populated, they die in the assertion of the store; when it files a
    packet, [tag] is not 0 and the second receive ends the wait in one
    of these two ways. *)
Theorem size_mismatch_on_populated_entry P w tag fuel data_is_null :
  0 < sizeof_system_header_packet_t P <= MAX_PAYLOAD_SIZE ->
  0 <= tag < MAX_TAG ->
  0 < packet_size (packet_entries w !!! Z.to_nat tag) ->
  let size := packet_size (packet_entries w !!! Z.to_nat tag) in
  (size <> sizeof_cxl_io_completion_packet_t P ->
   wait_for_cxl_io_completion P (S fuel) tag w = AssertionFailed w) /\
  (size <> sizeof_cxl_io_completion_data_packet_32b_t P ->
   size <> sizeof_cxl_io_completion_data_packet_64b_t P ->
   wait_for_cxl_io_completion_data P (S fuel) tag data_is_null w
   = AssertionFailed w) /\
  (size <> sizeof_cxl_io_completion_packet_t P ->
   wait_for_cxl_io_cfg_completion P (S fuel) tag true w = AssertionFailed w) /\
  (size <> sizeof_cxl_io_completion_packet_t P ->
   size <> sizeof_cxl_io_completion_data_packet_32b_t P ->
   wait_for_cxl_io_cfg_completion P (S fuel) tag false w = AssertionFailed w) /\
  (size <> sizeof_cxl_mem_s2m_ndr_packet_t P ->
   receives_and_gives_up P None tag w
     (wait_for_cxl_mem_completion P (S (S fuel)) tag w)) /\
  (size <> sizeof_cxl_mem_s2m_drs_packet_t P ->
   receives_and_gives_up P None tag w
     (wait_for_cxl_mem_mem_data P (S (S fuel)) tag w)) /\
  (tag = 0 -> size <> sizeof_base_sideband_packet_t P ->
   receives_and_gives_up P None 0 w
     (wait_for_base_sideband_packet P (S (S fuel)) w)).
Proof.
  intros Hh Htag Hpop size.
  assert (Hgt : (size >? 0) = true) by (apply Z.gtb_lt; exact Hpop).
  assert (Hlen : (0 < length (packet_entries w))%nat).
  { assert (Hin : (Z.to_nat tag < length (packet_entries w))%nat)
      by (apply populated_in_range; lia).
    lia. }
  assert (Hsized : forall expected, size <> expected ->
            receives_and_gives_up P None tag w
              (wait_for_sized_packet P (S (S fuel)) expected tag w)).
  { intros expected Hne.
    apply (wait_receives_and_gives_up P None
             (fun f => wait_for_sized_packet P f expected tag)
             (fun e => packet_size e <> expected)); try assumption.
    - intros f w' Hw'. now apply wait_for_sized_packet_round.
    - intros ->. change (Z.to_nat 0) with 0%nat in Hpop. lia. }
  repeat split.
  - intros H1. cbn [wait_for_cxl_io_completion]. unfold bind at 1.
    rewrite load_entry_valid by assumption. fold size. rewrite Hgt.
    unfold bind, assert.
    destruct (Z.eqb_spec size (sizeof_cxl_io_completion_packet_t P));
      [contradiction | reflexivity].
  - intros H1 H2. cbn [wait_for_cxl_io_completion_data]. unfold bind at 1.
    rewrite load_entry_valid by assumption. fold size. rewrite Hgt.
    unfold bind, assert.
    destruct (Z.eqb_spec size (sizeof_cxl_io_completion_data_packet_32b_t P));
      [contradiction|].
    destruct (Z.eqb_spec size (sizeof_cxl_io_completion_data_packet_64b_t P));
      [contradiction | reflexivity].
  - intros H1. cbn [wait_for_cxl_io_cfg_completion]. unfold bind at 1.
    rewrite load_entry_valid by assumption. fold size. rewrite Hgt.
    unfold bind, assert.
    destruct (Z.eqb_spec size (sizeof_cxl_io_completion_packet_t P));
      [contradiction | reflexivity].
  - intros H1 H2. cbn [wait_for_cxl_io_cfg_completion]. unfold bind at 1.
    rewrite load_entry_valid by assumption. fold size. rewrite Hgt.
    unfold bind, assert.
    destruct (Z.eqb_spec size (sizeof_cxl_io_completion_packet_t P));
      [contradiction|].
    destruct (Z.eqb_spec size (sizeof_cxl_io_completion_data_packet_32b_t P));
      [contradiction | reflexivity].
  - intros H1. now apply Hsized.
  - intros H1. now apply Hsized.
  - intros -> H1. now apply Hsized.
Qed.

Lemma size_mismatch_on_populated_entry_witness :
  wait_for_cxl_io_completion sample_platform 1 0 one_packet_filed
    = AssertionFailed one_packet_filed /\
  (exists w1,
     process_incoming_packets sample_platform one_packet_filed
       = AssertionFailed w1 /\
     wait_for_cxl_mem_completion sample_platform 2 0 one_packet_filed
       = AssertionFailed w1) /\
  (exists w1,
     process_incoming_packets sample_platform stale_reply_world
       = Returned false w1 /\
     wait_for_cxl_mem_completion sample_platform 2 0 stale_reply_world
       = Returned None w1).
Proof.
  assert (Hh : 0 < sizeof_system_header_packet_t sample_platform
               <= MAX_PAYLOAD_SIZE) by (vm_compute; split; congruence).
  assert (Htag : 0 <= 0 < MAX_TAG) by (vm_compute; split; congruence).
  assert (Hpop : 0 < packet_size (packet_entries one_packet_filed
                                    !!! Z.to_nat 0)) by (vm_compute; reflexivity).
  assert (Hpop' : 0 < packet_size (packet_entries stale_reply_world
                                     !!! Z.to_nat 0)) by (vm_compute; reflexivity).
  destruct (size_mismatch_on_populated_entry sample_platform one_packet_filed
              0 0 true Hh Htag Hpop) as (Hio & _ & _ & _ & Hmem & _).
  destruct (size_mismatch_on_populated_entry sample_platform stale_reply_world
              0 0 true Hh Htag Hpop') as (_ & _ & _ & _ & Hmem' & _).
  split; [apply Hio; vm_compute; discriminate|].
  assert (Hne : packet_size (packet_entries one_packet_filed !!! Z.to_nat 0)
                <> sizeof_cxl_mem_s2m_ndr_packet_t sample_platform)
    by (vm_compute; discriminate).
  assert (Hne' : packet_size (packet_entries stale_reply_world !!! Z.to_nat 0)
                 <> sizeof_cxl_mem_s2m_ndr_packet_t sample_platform)
    by (vm_compute; discriminate).
  specialize (Hmem Hne). specialize (Hmem' Hne').
  unfold receives_and_gives_up, ends_with_receive in Hmem, Hmem'.
  split.
  - assert (Hkind : match process_incoming_packets sample_platform
                            one_packet_filed with
                    | AssertionFailed _ => true
                    | _ => false
                    end = true) by (vm_compute; reflexivity).
    destruct (process_incoming_packets sample_platform one_packet_filed)
      as [ok w1|w1|w1|]; try discriminate Hkind.
    exists w1. split; [reflexivity | exact Hmem].
  - assert (Hkind : match process_incoming_packets sample_platform
                            stale_reply_world with
                    | Returned false w1 =>
                        if decide (stray w1 = stray stale_reply_world)
                        then true else false
                    | _ => false
                    end = true) by (vm_compute; reflexivity).
    destruct (process_incoming_packets sample_platform stale_reply_world)
      as [[|] w1|w1|w1|]; try discriminate Hkind.
    destruct (decide (stray w1 = stray stale_reply_world)) as [Hs|];
      [|discriminate Hkind].
    exists w1. split; [reflexivity | exact (Hmem' Hs)].
Defined.

(** ** Tags *)

(** C7 -- [get_next_tag] is the constant 0: every send stores 0 through
    [tag], whatever its arguments, and a packet that has been received is
    filed in slot 0 of the catalog, the other slots staying as they
    were. *)
Theorem every_tag_is_zero P w :
  get_next_tag tt = 0 /\
  (forall hpa data, (send_cxl_mem_mem_write P hpa data w).1 = 0) /\
  (forall hpa, (send_cxl_mem_mem_read P hpa w).1 = 0) /\
  (forall hpa size, (send_cxl_io_mem_read P hpa size w).1 = 0) /\
  (forall hpa val size, (send_cxl_io_mem_write P hpa val size w).1 = 0) /\
  (forall bdf offset size type0,
     (send_cxl_io_config_space_read P bdf offset size type0 w).1 = 0) /\
  (forall bdf offset val size type0,
     (send_cxl_io_config_space_write P bdf offset val size type0 w).1 = 0) /\
  match process_incoming_packets P w with
  | Returned true w' =>
      exists buffer L,
        packet_entries w'
        = <[0%nat := {| packet := memcpy (packet (packet_entries w !!! 0%nat))
                                    buffer L;
                        packet_size := L |}]> (packet_entries w) /\
        forall i, i <> 0%nat -> packet_entries w' !! i = packet_entries w !! i
  | _ => True
  end /\
  exists w',
    process_incoming_packets sample_platform two_packets_world
      = Returned true w' /\
    packet_size (packet_entries w' !!! 0%nat) = 12 /\
    take 12 (packet (packet_entries w' !!! 0%nat)) = sample_packet 12 12 7.
Proof.
  repeat split; try reflexivity.
  - pose proof (process_incoming_packets_catalog P w) as Hc.
    destruct (process_incoming_packets P w) as [[|] w'|w'|w'|]; try exact I.
    destruct Hc as (_ & b1 & b2 & _ & Hnew).
    exists b2, (declared_length P b1). split; [exact Hnew|].
    intros i Hi. rewrite Hnew. apply list_lookup_insert_ne. congruence.
  - exists one_packet_filed. vm_compute. repeat split; reflexivity.
Qed.

(** ** CXL.mem writes *)

(** C8 -- a CXL.mem write goes out as an M2S request with data: opcode
    [MEM_WR], address [hpa >> 6], that is [hpa / 64], one access unit of
    the caller's data, and a payload length of the headers plus one
    access unit. *)
Theorem mem_write_request_fields P hpa data w :
  CXL_MEM_ACCESS_UNIT <= Z.of_nat (length data) ->
  exists payload,
    sends (send_cxl_mem_mem_write P hpa data w).2 w
      (cxl_mem_m2s_rwd_packet
         {| payload_type := CXL_MEM;
            payload_length :=
              sizeof_cxl_mem_m2s_rwd_headers P + CXL_MEM_ACCESS_UNIT |}
         M2S_RWD
         {| mem_opcode := MEM_WR; addr := Z.shiftr hpa 6 |}
         payload)
      (sizeof_cxl_mem_m2s_rwd_headers P + CXL_MEM_ACCESS_UNIT) /\
    Z.shiftr hpa 6 = hpa / 64 /\
    payload = take (Z.to_nat CXL_MEM_ACCESS_UNIT) data /\
    Z.of_nat (length payload) = CXL_MEM_ACCESS_UNIT.
Proof.
  intros Hlen. exists (take (Z.to_nat CXL_MEM_ACCESS_UNIT) data).
  split; [|split; [|split]].
  - unfold send_cxl_mem_mem_write. cbn [snd]. cbv zeta.
    unfold sizeof_cxl_mem_m2s_rwd_packet_t.
    replace (memcpy (replicate (Z.to_nat CXL_MEM_ACCESS_UNIT) 0) data
               CXL_MEM_ACCESS_UNIT)
      with (take (Z.to_nat CXL_MEM_ACCESS_UNIT) data).
    + apply write_then_report.
    + unfold memcpy. rewrite drop_replicate, Nat.sub_diag. cbn [replicate].
      now rewrite app_nil_r.
  - apply (Z.shiftr_div_pow2 hpa 6). lia.
  - reflexivity.
  - rewrite length_take. unfold CXL_MEM_ACCESS_UNIT in *. lia.
Qed.

Lemma mem_write_request_fields_witness :
  exists payload,
    sends (send_cxl_mem_mem_write sample_platform 0x40 (replicate 64 0xAB)
             (idle_world 1)).2 (idle_world 1)
      (cxl_mem_m2s_rwd_packet
         {| payload_type := CXL_MEM; payload_length := 18 + 64 |}
         M2S_RWD {| mem_opcode := MEM_WR; addr := 1 |} payload)
      (18 + 64) /\
    payload = replicate 64 0xAB.
Proof.
  assert (Hlen : CXL_MEM_ACCESS_UNIT <= Z.of_nat (length (replicate 64 0xAB)))
    by (vm_compute; congruence).
  destruct (mem_write_request_fields sample_platform 0x40 (replicate 64 0xAB)
              (idle_world 1) Hlen) as (payload & Hsend & _ & Hpay & _).
  exists payload. split; [exact Hsend | exact Hpay].
Defined.

(** ** CXL.io memory request addresses *)

(** C9 -- the address fields of a CXL.io memory request: [addr_upper]
    is [htonll (hpa)] cut to 56 bits, [htonll] leaving the address in
    memory in network byte order (on a little-endian host it is the byte
    swap of the address); [addr_lower] is bits 7..2 of the address.  The
    read and both write variants carry that header. *)
Theorem mem_request_address_fields P hpa size val w :
  0 <= hpa < 2 ^ 64 ->
  let hdr := mreq_header_of P hpa (get_next_tag tt) in
  addr_upper hdr = Z.land (htonll P hpa) (Z.ones 56) /\
  field_bytes P 8 (htonll P hpa) = bytes_be 8 hpa /\
  (host_big_endian P = false ->
   addr_upper hdr = Z.land (bswap 8 hpa) (Z.ones 56)) /\
  (forall i, 0 <= i ->
     Z.testbit (addr_lower hdr) i = (i <? 6) && Z.testbit hpa (i + 2)) /\
  (Z.rem size 4 = 0 ->
   exists sh ioh,
     sends (send_cxl_io_mem_read P hpa size w).2 w
       (cxl_io_mem_rd_packet sh ioh hdr) (sizeof_cxl_io_mem_rd_packet_t P)) /\
  (0 <= val < 0xFFFFFFFF ->
   exists sh ioh,
     sends (send_cxl_io_mem_write P hpa val 4 w).2 w
       (cxl_io_mem_wr_packet_32b sh ioh hdr val)
       (sizeof_cxl_io_mem_wr_packet_32b_t P)) /\
  (val < 0xFFFFFFFFFFFFFFFF ->
   exists sh ioh,
     sends (send_cxl_io_mem_write P hpa val 8 w).2 w
       (cxl_io_mem_wr_packet_64b sh ioh hdr val)
       (sizeof_cxl_io_mem_wr_packet_64b_t P)).
Proof.
  intros Hhpa hdr. subst hdr. cbn [mreq_header_of addr_upper addr_lower].
  split; [reflexivity|].
  split; [now apply htonll_network_order|].
  split.
  { intros Hle. unfold htonll. rewrite Hle. reflexivity. }
  split.
  { intros i Hi. rewrite Z.shiftr_spec, Z.land_spec by lia.
    change 255 with (Z.ones 8). rewrite Z.testbit_ones_nonneg by lia.
    rewrite andb_comm. f_equal. decide_comparisons. }
  split; [|split].
  - intros Hrem. do 2 eexists.
    unfold send_cxl_io_mem_read. cbn [snd]. cbv zeta.
    unfold bind at 1, assert at 1. rewrite Hrem. cbn [Z.eqb].
    apply write_then_report.
  - intros Hval. do 2 eexists. apply mem_write_32. exact Hval.
  - intros Hval. do 2 eexists. apply mem_write_64. exact Hval.
Qed.

Lemma mem_request_address_fields_witness :
  exists sh ioh,
    sends (send_cxl_io_mem_read sample_platform 0x1122334455667788 4
             (idle_world 1)).2 (idle_world 1)
      (cxl_io_mem_rd_packet sh ioh
         {| mreq_req_id := 0; mreq_tag := 0;
            addr_lower := 0x22;
            addr_upper := 0x77665544332211 |})
      (sizeof_cxl_io_mem_rd_packet_t sample_platform).
Proof.
  assert (Hhpa : 0 <= 0x1122334455667788 < 2 ^ 64)
    by (vm_compute; split; congruence).
  assert (Hrem : Z.rem 4 4 = 0) by reflexivity.
  destruct (mem_request_address_fields sample_platform 0x1122334455667788 4 0
              (idle_world 1) Hhpa) as (_ & _ & _ & _ & Hrd & _).
  exact (Hrd Hrem).
Defined.

(** ** The declared length *)

(** C10 -- once the header is in, the remaining length is
    [payload_length - sizeof (system_header_packet_t)] in [size_t]
    arithmetic and is what the next [read] is asked for.  A declared
    length below the header size wraps round to just under [2 ^ 64];
    the call then fails.  A declared length above the header size asks
    for the difference, and one equal to it asks for nothing. *)
Theorem short_declared_length_wraps P w buffer1 w1 :
  0 < sizeof_system_header_packet_t P <= MAX_PAYLOAD_SIZE ->
  wait_for_system_header P automatic_buffer 0 MAX_PAYLOAD_SIZE w
    = Returned (true, buffer1) w1 ->
  let h := sizeof_system_header_packet_t P in
  let L := declared_length P buffer1 in
  (L < h ->
   exists n l w',
     process_incoming_packets P w = Returned false w' /\
     trace w' = trace w1 ++ sys_read (2 ^ 64 - (h - L)) n :: l) /\
  (h < L ->
   exists n l w',
     final_world (process_incoming_packets P w) = Some w' /\
     trace w' = trace w1 ++ sys_read (L - h) n :: l) /\
  (L = h ->
   exists w',
     final_world (process_incoming_packets P w) = Some w' /\
     trace w' = trace w1).
Proof.
  intros Hh Hhdr h L. unfold MAX_PAYLOAD_SIZE in Hh. fold h in Hh.
  assert (HL : 0 <= L < 2 ^ 64) by apply size_t_range.
  split; [|split].
  - intros Hshort.
    assert (Hrem : size_t (L - h) = 2 ^ 64 - (h - L)).
    { rewrite size_t_borrow by lia. lia. }
    destruct (process_incoming_packets_path P w)
      as [b w1' Hh' | b1 w1' b2 w2 Hh' Hp | b1 w1' b2 w2 Hh' Hp];
      rewrite Hhdr in Hh'; [discriminate Hh' | |];
      injection Hh' as <- <-; fold h L in Hp; rewrite Hrem in Hp;
      apply wait_for_payload_inv in Hp;
      destruct Hp as (_ & _ & (l & Htr & Hfirst) & Hfit).
    + destruct Hfirst as (n & l' & ->); [lia|].
      rewrite size_t_small in Htr by lia. eauto.
    + exfalso. specialize (Hfit eq_refl).
      unfold MAX_PAYLOAD_SIZE in Hfit.
      rewrite (size_t_small (512 - _)) in Hfit by (fold h; lia).
      fold h in Hfit. lia.
  - intros Hlong.
    assert (Hrem : size_t (L - h) = L - h) by (apply size_t_small; lia).
    destruct (process_incoming_packets_path P w)
      as [b w1' Hh' | b1 w1' b2 w2 Hh' Hp | b1 w1' b2 w2 Hh' Hp];
      rewrite Hhdr in Hh'; [discriminate Hh' | |];
      injection Hh' as <- <-; fold h L in Hp; rewrite Hrem in Hp;
      apply wait_for_payload_inv in Hp;
      destruct Hp as (_ & _ & (l & Htr & Hfirst) & _);
      (destruct Hfirst as (n & l' & ->); [lia|]);
      rewrite size_t_small in Htr by lia.
    + exists n, l', w2. split; [reflexivity | exact Htr].
    + destruct (packet_size (packet_entries w2 !!! 0%nat) =? 0);
        exists n, l'; eexists; (split; [reflexivity | exact Htr]).
  - intros Hexact.
    assert (Hrem : size_t (L - h) = 0) by (rewrite Hexact, Z.sub_diag; reflexivity).
    destruct (process_incoming_packets_path P w)
      as [b w1' Hh' | b1 w1' b2 w2 Hh' Hp | b1 w1' b2 w2 Hh' Hp];
      rewrite Hhdr in Hh'; [discriminate Hh' | |];
      injection Hh' as <- <-; fold h L in Hp; rewrite Hrem in Hp;
      rewrite wait_for_payload_nothing in Hp.
    + discriminate Hp.
    + injection Hp as <- <-.
      destruct (packet_size (packet_entries w1 !!! 0%nat) =? 0);
        eexists; (split; reflexivity).
Qed.

Lemma short_declared_length_wraps_witness :
  exists n l w',
    process_incoming_packets sample_platform short_length_world
      = Returned false w' /\
    trace w' = [sys_read 4 4] ++ sys_read (2 ^ 64 - 2) n :: l.
Proof.
  assert (Hh : 0 < sizeof_system_header_packet_t sample_platform
               <= MAX_PAYLOAD_SIZE) by (vm_compute; split; congruence).
  pose (r := wait_for_system_header sample_platform automatic_buffer 0
               MAX_PAYLOAD_SIZE short_length_world).
  pose (buffer1 := match r with Returned (_, b) _ => b | _ => [] end).
  pose (w1 := default short_length_world (final_world r)).
  assert (Hhdr : wait_for_system_header sample_platform automatic_buffer 0
                   MAX_PAYLOAD_SIZE short_length_world
                 = Returned (true, buffer1) w1) by (vm_compute; reflexivity).
  destruct (short_declared_length_wraps sample_platform short_length_world
              buffer1 w1 Hh Hhdr) as (Hshort & _).
  apply Hshort. vm_compute. reflexivity.
Defined.

(** * Further properties of the transport *)

(** ** What a read loop that succeeds has done *)

(** X1 -- when [wait_for_payload] returns [true] for a buffer whose
    declared size lies within the array, it has taken exactly
    [payload_size] bytes off the stream and they stand at the start of
    the buffer; the array has kept its size, the bytes before the buffer
    are untouched, and no byte was stored outside the array. *)
Theorem wait_for_payload_reads_exactly arr off buffer_size payload_size w arr' w' :
  0 <= off -> 0 <= buffer_size -> 0 <= payload_size < 2 ^ 64 ->
  off + buffer_size <= Z.of_nat (length arr) ->
  wait_for_payload arr off buffer_size payload_size w = Returned (true, arr') w' ->
  rx w = take (Z.to_nat payload_size) (drop (Z.to_nat off) arr') ++ rx w' /\
  Z.of_nat (length (rx w)) = payload_size + Z.of_nat (length (rx w')) /\
  length arr' = length arr /\
  take (Z.to_nat off) arr' = take (Z.to_nat off) arr /\
  stray w' = stray w.
Proof.
  intros Hoff Hbsz Hpsz Hcap Hrun.
  pose proof (wait_for_payload_inv _ _ _ _ _ _ _ _ Hrun) as (_ & _ & _ & Hfit).
  specialize (Hfit eq_refl).
  destruct (wait_for_payload_exact _ _ _ _ _ _ _ Hoff Hpsz Hcap Hrun)
    as (bs & Hrx & Hlen & Harr & Hstray).
  assert (Hin : off + payload_size <= Z.of_nat (length arr)) by lia.
  assert (Hpre : length (take (Z.to_nat off) arr) = Z.to_nat off)
    by (rewrite length_take; lia).
  split.
  { rewrite Hrx. f_equal. rewrite Harr.
    rewrite drop_app_length' by (symmetry; exact Hpre).
    rewrite take_app_length' by lia. reflexivity. }
  split; [rewrite Hrx, length_app; lia|].
  split.
  { rewrite Harr, !length_app, length_take, length_drop. lia. }
  split; [|exact Hstray].
  rewrite Harr. apply take_app_length'. symmetry. exact Hpre.
Qed.

Lemma wait_for_payload_reads_exactly_witness :
  exists w',
    wait_for_payload [0; 0; 0; 0; 0; 0] 2 4 3
      (receiving_world [Data 0 1; Data 0 9] [1; 2; 3; 4; 5])
    = Returned (true, [0; 0; 1; 2; 3; 0]) w' /\
    rx w' = [4; 5] /\ stray w' = [].
Proof.
  pose (w := receiving_world [Data 0 1; Data 0 9] [1; 2; 3; 4; 5]).
  pose (r := wait_for_payload [0; 0; 0; 0; 0; 0] 2 4 3 w).
  pose (arr' := match r with Returned (_, a) _ => a | _ => [] end).
  pose (w' := default w (final_world r)).
  assert (Hrun : wait_for_payload [0; 0; 0; 0; 0; 0] 2 4 3 w
                 = Returned (true, arr') w') by (vm_compute; reflexivity).
  assert (Hoff : 0 <= 2) by lia.
  assert (Hbsz : 0 <= 4) by lia.
  assert (Hpsz : 0 <= 3 < 2 ^ 64) by (vm_compute; split; congruence).
  assert (Hcap : 2 + 4 <= Z.of_nat (length [0; 0; 0; 0; 0; 0]))
    by (vm_compute; congruence).
  destruct (wait_for_payload_reads_exactly _ _ _ _ _ _ _ Hoff Hbsz Hpsz Hcap Hrun)
    as (_ & _ & _ & _ & Hstray).
  exists w'. split; [exact Hrun|]. split; [reflexivity | exact Hstray].
Defined.

(** X2 -- a packet that [process_incoming_packets] takes in is the front
    of the byte stream: looking slot 0 up afterwards gives back exactly
    the bytes that left the stream, under the length the packet's own
    header declares, which lies between the header size and 512; and
    nothing was stored outside the buffer. *)
Theorem received_packet_is_the_front_of_the_stream P w w' :
  0 < sizeof_system_header_packet_t P <= MAX_PAYLOAD_SIZE ->
  (0 < length (packet_entries w))%nat ->
  process_incoming_packets P w = Returned true w' ->
  let entry := packet_entries w' !!! 0%nat in
  rx w = take (Z.to_nat (packet_size entry)) (packet entry) ++ rx w' /\
  packet_size entry
  = size_t (payload_length_of P
              (take (Z.to_nat (sizeof_system_header_packet_t P))
                 (packet entry))) /\
  sizeof_system_header_packet_t P <= packet_size entry <= MAX_PAYLOAD_SIZE /\
  stray w' = stray w.
Proof.
  intros Hh Hlen Hrun entry.
  destruct (received_packet_front P w w' Hh Hrun)
    as (bytes & Hrx & Hdecl & Hrange & _ & Hnew & Hstray).
  assert (Hentry : entry = {| packet := bytes ++ drop (length bytes)
                                          (packet (packet_entries w !!! 0%nat));
                              packet_size := Z.of_nat (length bytes) |}).
  { subst entry. rewrite Hnew. now apply list_lookup_total_insert_eq. }
  rewrite Hentry. cbn [packet packet_size]. rewrite Nat2Z.id.
  split; [|split; [|split]].
  - rewrite take_app_length. exact Hrx.
  - rewrite Hdecl. do 2 f_equal. rewrite take_app_le by lia. reflexivity.
  - exact Hrange.
  - exact Hstray.
Qed.

Lemma received_packet_is_the_front_of_the_stream_witness :
  rx two_packets_world
  = sample_packet 12 12 7 ++ rx one_packet_filed /\
  packet_size (packet_entries one_packet_filed !!! 0%nat) = 12.
Proof.
  assert (Hh : 0 < sizeof_system_header_packet_t sample_platform
               <= MAX_PAYLOAD_SIZE) by (vm_compute; split; congruence).
  assert (Hlen : (0 < length (packet_entries two_packets_world))%nat)
    by (vm_compute; lia).
  assert (Hrun : process_incoming_packets sample_platform two_packets_world
                 = Returned true one_packet_filed) by (vm_compute; reflexivity).
  destruct (received_packet_is_the_front_of_the_stream sample_platform
              two_packets_world one_packet_filed Hh Hlen Hrun)
    as (Hrx & _ & _ & _).
  split; [|vm_compute; reflexivity].
  rewrite Hrx. f_equal.
Defined.

(** ** The deadline *)

Lemma read_of_data arr pos count w wait avail rest :
  pending w = Data wait avail :: rest ->
  exists arr' w',
    read arr pos count w
    = Returned (Z.of_nat (length (take (Z.to_nat (Z.min avail count)) (rx w))),
                arr') w' /\
    now w' = now w + Z.max 0 wait /\
    pending w' = rest /\
    trace w'
    = trace w ++ [sys_read count
                    (Z.of_nat (length (take (Z.to_nat (Z.min avail count))
                                         (rx w))))].
Proof.
  intros Hp. unfold read. rewrite Hp. cbn [head read_completion].
  match goal with |- context [store_bytes arr pos ?bs ?w1] =>
    pose proof (store_bytes_frame bs arr pos w1) as Hf;
    destruct (store_bytes arr pos bs w1) as [arr' w2] end.
  exists arr', w2. destruct Hf as (Hnow & Hpend & _ & _ & Htr & _).
  cbn in *. repeat split; assumption.
Qed.

(** X3 -- the five seconds cover the whole payload and are checked
    only between reads: when the first read ends after the deadline and
    has brought less than the payload, [wait_for_payload] returns
    [false] without a second read, whatever is still to come. *)
Theorem deadline_is_checked_between_reads arr off buffer_size payload_size w
    wait avail rest :
  pending w = Data wait avail :: rest ->
  MAX_DURATION < wait ->
  payload_size < 2 ^ 64 ->
  let got :=
    Z.of_nat (length (take (Z.to_nat (Z.min avail payload_size)) (rx w))) in
  0 < got < payload_size ->
  got <= buffer_size ->
  exists arr' w',
    wait_for_payload arr off buffer_size payload_size w
    = Returned (false, arr') w' /\
    trace w' = trace w ++ [sys_read payload_size got] /\
    pending w' = rest.
Proof.
  intros Hp Hwait Hpsz got Hgot Hfit.
  assert (Hcount : size_t payload_size = payload_size)
    by (apply size_t_small; lia).
  unfold wait_for_payload. rewrite Hp. cbn [length wait_for_payload_loop].
  replace (0 <? payload_size) with true by (symmetry; apply Z.ltb_lt; lia).
  unfold bind at 1. unfold get_world.
  rewrite Z.sub_diag. change (0 >? MAX_DURATION) with false. cbv iota.
  rewrite Z.sub_0_r, Hcount. unfold bind at 1.
  destruct (read_of_data arr (off + 0) payload_size w wait avail rest Hp)
    as (arr1 & w1 & Hread & Hnow & Hpend & Htr).
  fold got in Hread, Htr. rewrite Hread.
  replace (got <=? 0) with false by (symmetry; apply Z.leb_gt; lia).
  replace (got >? 0) with true by (symmetry; apply Z.gtb_lt; lia).
  cbn [andb].
  assert (Hsum : size_t (got + 0) = got) by (rewrite Z.add_0_r; apply size_t_small; lia).
  rewrite Hsum, (gtb_false got buffer_size) by lia.
  rewrite Z.add_0_l, (size_t_small got) by lia.
  replace (got <? payload_size) with true by (symmetry; apply Z.ltb_lt; lia).
  unfold bind at 1. unfold get_world.
  replace (now w1 - now w >? MAX_DURATION) with true
    by (symmetry; apply Z.gtb_lt; lia).
  exists arr1, w1. unfold ret. repeat split; assumption.
Qed.

Lemma deadline_is_checked_between_reads_witness :
  exists arr' w',
    wait_for_payload [0; 0; 0; 0] 0 4 4
      (receiving_world [Data 6 2; Data 0 2] [1; 2; 3; 4])
    = Returned (false, arr') w' /\
    trace w' = [sys_read 4 2] /\
    pending w' = [Data 0 2].
Proof.
  assert (Hwait : MAX_DURATION < 6) by (vm_compute; reflexivity).
  assert (Hpsz : 4 < 2 ^ 64) by (vm_compute; reflexivity).
  apply (deadline_is_checked_between_reads [0; 0; 0; 0] 0 4 4
           (receiving_world [Data 6 2; Data 0 2] [1; 2; 3; 4]) 6 2 [Data 0 2]
           eq_refl Hwait Hpsz).
  - vm_compute. split; reflexivity.
  - vm_compute. congruence.
Defined.

(** ** The catalog *)

Lemma release_in_range tag w :
  0 <= tag < MAX_TAG ->
  (Z.to_nat tag < length (packet_entries w))%nat ->
  exists w',
    release_packet_entry tag w = Returned true w' /\
    packet_entries w'
    = <[Z.to_nat tag := {| packet := packet (packet_entries w !!! Z.to_nat tag);
                           packet_size := 0 |}]> (packet_entries w) /\
    trace w' = trace w /\ rx w' = rx w /\ pending w' = pending w.
Proof.
  unfold release_packet_entry, MAX_TAG. intros Htag Hin.
  replace (tag >=? 512) with false
    by (symmetry; rewrite Z.geb_leb; apply Z.leb_gt; lia).
  eexists. split; [reflexivity|]. repeat split.
Qed.

(** X4 -- [release_packet_entry]: a tag of 512 or more is refused and
    nothing changes; a tag below 512 has its length set to 0, its bytes
    and every other slot are kept, no system call is made, and the entry
    then reads as empty. *)
Theorem release_packet_entry_empties_one_slot tag w :
  (MAX_TAG <= tag -> release_packet_entry tag w = Returned false w) /\
  (0 <= tag < MAX_TAG ->
   (Z.to_nat tag < length (packet_entries w))%nat ->
   exists w',
     release_packet_entry tag w = Returned true w' /\
     packet_size (packet_entries w' !!! Z.to_nat tag) = 0 /\
     packet (packet_entries w' !!! Z.to_nat tag)
     = packet (packet_entries w !!! Z.to_nat tag) /\
     (forall i, i <> Z.to_nat tag ->
        packet_entries w' !!! i = packet_entries w !!! i) /\
     trace w' = trace w /\ rx w' = rx w /\ pending w' = pending w /\
     load_entry (get_packet_entry tag) w'
     = Returned {| packet := packet (packet_entries w !!! Z.to_nat tag);
                   packet_size := 0 |} w').
Proof.
  split.
  - intros Htag. unfold release_packet_entry.
    replace (tag >=? MAX_TAG) with true
      by (symmetry; rewrite Z.geb_leb; apply Z.leb_le; lia).
    reflexivity.
  - intros Htag Hin.
    destruct (release_in_range tag w Htag Hin)
      as (w' & Hrun & Hnew & Htr & Hrx & Hpend).
    exists w'. split; [exact Hrun|].
    rewrite load_entry_valid by assumption.
    rewrite Hnew, list_lookup_total_insert_eq by assumption.
    repeat split; try assumption.
    intros i Hi. apply list_lookup_total_insert_ne. congruence.
Qed.

Lemma release_packet_entry_empties_one_slot_witness :
  release_packet_entry 512 one_packet_filed = Returned false one_packet_filed /\
  exists w',
    release_packet_entry 0 one_packet_filed = Returned true w' /\
    packet_size (packet_entries w' !!! 0%nat) = 0 /\
    take 12 (packet (packet_entries w' !!! 0%nat)) = sample_packet 12 12 7.
Proof.
  destruct (release_packet_entry_empties_one_slot 512 one_packet_filed)
    as (Hhigh & _).
  destruct (release_packet_entry_empties_one_slot 0 one_packet_filed)
    as (_ & Hlow).
  split.
  - apply Hhigh. vm_compute. congruence.
  - destruct Hlow as (w' & Hrun & Hsize & Hbytes & _).
    + vm_compute. split; congruence.
    + vm_compute. lia.
    + exists w'. split; [exact Hrun|]. split; [exact Hsize|].
      change (Z.to_nat 0) with 0%nat in Hbytes. rewrite Hbytes.
      vm_compute. reflexivity.
Defined.

(** X5 -- [release_packet_entry (0)] reopens slot 0: the next
    [process_incoming_packets] cannot die in the assertion of the store,
    and when it reads a whole packet it returns [true] with the packet
    filed in slot 0 under the length its header declares, nothing
    stored outside the buffer. *)
Theorem release_reopens_slot_zero P w :
  0 < sizeof_system_header_packet_t P <= MAX_PAYLOAD_SIZE ->
  (0 < length (packet_entries w))%nat ->
  exists w1,
    release_packet_entry 0 w = Returned true w1 /\
    packet_size (packet_entries w1 !!! 0%nat) = 0 /\
    (forall w2, process_incoming_packets P w1 <> AssertionFailed w2) /\
    (forall buffer1 wa buffer2 wb,
       header_phase P w1 = Returned (true, buffer1) wa ->
       payload_phase P buffer1 wa = Returned (true, buffer2) wb ->
       exists w2,
         process_incoming_packets P w1 = Returned true w2 /\
         packet_size (packet_entries w2 !!! 0%nat) = declared_length P buffer1 /\
         stray w2 = stray w1).
Proof.
  intros Hh Hlen.
  destruct (release_in_range 0 w) as (w1 & Hrun & Hnew & _);
    [unfold MAX_TAG; lia | exact Hlen |].
  change (Z.to_nat 0) with 0%nat in Hnew.
  assert (Hlen1 : (0 < length (packet_entries w1))%nat)
    by (rewrite Hnew, length_insert; exact Hlen).
  assert (Hsize : packet_size (packet_entries w1 !!! 0%nat) = 0)
    by (rewrite Hnew, list_lookup_total_insert_eq by assumption; reflexivity).
  exists w1. split; [exact Hrun|]. split; [exact Hsize|]. split.
  - intros w2 Hdies.
    pose proof (process_incoming_packets_catalog P w1) as Hc.
    rewrite Hdies in Hc. destruct Hc as (_ & Hne). contradiction.
  - intros b1 wa b2 wb Hhdr Hpay.
    destruct (completed_receive_in_bounds P w1 b1 wa b2 wb Hh Hhdr Hpay)
      as (He & Hs & _).
    rewrite (completed_receive_result P w1 b1 wa b2 wb Hhdr Hpay), He, Hsize.
    change (0 =? 0) with true. cbv iota.
    eexists. split; [reflexivity|]. split; [|exact Hs].
    cbn [packet_entries with_packet_entries].
    rewrite list_lookup_total_insert_eq by assumption. reflexivity.
Qed.

Lemma release_reopens_slot_zero_witness :
  exists w1 w2,
    release_packet_entry 0 one_packet_filed = Returned true w1 /\
    process_incoming_packets sample_platform w1 = Returned true w2 /\
    packet_size (packet_entries w2 !!! 0%nat) = 12 /\
    stray w2 = stray w1.
Proof.
  assert (Hh : 0 < sizeof_system_header_packet_t sample_platform
               <= MAX_PAYLOAD_SIZE) by (vm_compute; split; congruence).
  assert (Hlen : (0 < length (packet_entries one_packet_filed))%nat)
    by (vm_compute; lia).
  destruct (release_reopens_slot_zero sample_platform one_packet_filed Hh Hlen)
    as (w1 & Hrel & _ & _ & Hrecv).
  assert (Hw1 : w1 = default one_packet_filed
                       (final_world (release_packet_entry 0 one_packet_filed)))
    by (rewrite Hrel; reflexivity).
  pose (r1 := header_phase sample_platform w1).
  pose (b1 := match r1 with Returned (_, b) _ => b | _ => [] end).
  pose (wa := default w1 (final_world r1)).
  assert (Hhdr : header_phase sample_platform w1 = Returned (true, b1) wa)
    by (subst r1 b1 wa; rewrite Hw1; vm_compute; reflexivity).
  pose (r2 := payload_phase sample_platform b1 wa).
  pose (b2 := match r2 with Returned (_, b) _ => b | _ => [] end).
  pose (wb := default w1 (final_world r2)).
  assert (Hpay : payload_phase sample_platform b1 wa = Returned (true, b2) wb)
    by (subst r2 b2 wb r1 b1 wa; rewrite Hw1; vm_compute; reflexivity).
  destruct (Hrecv b1 wa b2 wb Hhdr Hpay) as (w2 & Hrun & Hsize & Hs).
  exists w1, w2. split; [exact Hrel|]. split; [exact Hrun|].
  split; [|exact Hs].
  rewrite Hsize. subst r1 b1. rewrite Hw1. vm_compute. reflexivity.
Defined.

(** X6 -- the catalog stays well formed: it starts as 512 entries of 512
    bytes with length 0, and neither a receive that stored nothing
    outside its buffer, however it ends, nor a release changes the
    number of entries, the size of a buffer, or lets a recorded length
    exceed 512. *)
Theorem catalog_stays_well_formed P w :
  0 < sizeof_system_header_packet_t P <= MAX_PAYLOAD_SIZE ->
  catalog_ok (packet_entries w) ->
  catalog_ok initial_packet_entries /\
  (forall w', final_world (process_incoming_packets P w) = Some w' ->
     stray w' = stray w ->
     catalog_ok (packet_entries w')) /\
  (forall tag ok w', release_packet_entry tag w = Returned ok w' ->
     catalog_ok (packet_entries w')).
Proof.
  intros Hh (Hlen & Hall).
  assert (Hat : forall i, entry_ok (packet_entries w !!! i)).
  { intros i. destruct (decide (i < length (packet_entries w))%nat) as [Hi|Hi].
    - apply Forall_lookup_total_1; assumption.
    - rewrite list_lookup_total_alt, lookup_ge_None_2 by lia.
      split; [reflexivity | unfold MAX_PAYLOAD_SIZE; cbn; lia]. }
  split; [|split].
  - split; [reflexivity|]. apply Forall_replicate.
    split; [reflexivity | unfold MAX_PAYLOAD_SIZE; cbn; lia].
  - intros w' Hfin _.
    pose proof (process_incoming_packets_catalog P w) as Hc.
    destruct (process_incoming_packets P w) as [[|] w2|w2|w2|] eqn:Hrun;
      try discriminate Hfin; injection Hfin as <-.
    + destruct (received_packet_front P w w2 Hh Hrun)
        as (bytes & _ & _ & Hrange & _ & Hnew & _).
      rewrite Hnew. split; [now rewrite length_insert|].
      apply Forall_insert; [assumption|].
      destruct (Hat 0%nat) as (Hbuf & _).
      unfold MAX_PAYLOAD_SIZE in Hrange.
      split; cbn [packet packet_size].
      * rewrite length_app, length_drop, Hbuf. lia.
      * unfold MAX_PAYLOAD_SIZE. lia.
    + rewrite Hc. split; assumption.
    + destruct Hc as (Hc & _). rewrite Hc. split; assumption.
    + destruct Hc.
  - intros tag ok w' Hrel. unfold release_packet_entry in Hrel.
    destruct (tag >=? MAX_TAG).
    + injection Hrel as _ <-. split; assumption.
    + injection Hrel as _ <-. cbn [packet_entries with_packet_entries].
      split; [now rewrite length_insert|].
      apply Forall_insert; [assumption|].
      destruct (Hat (Z.to_nat tag)) as (Hbuf & _).
      split; [exact Hbuf | unfold MAX_PAYLOAD_SIZE; cbn; lia].
Qed.

Lemma catalog_stays_well_formed_witness :
  catalog_ok (packet_entries one_packet_filed).
Proof.
  assert (Hh : 0 < sizeof_system_header_packet_t sample_platform
               <= MAX_PAYLOAD_SIZE) by (vm_compute; split; congruence).
  destruct (catalog_stays_well_formed sample_platform two_packets_world Hh)
    as (Hinit & Hrecv & _).
  - split; [reflexivity|]. apply Forall_replicate.
    split; [reflexivity | vm_compute; split; congruence].
  - apply Hrecv; vm_compute; reflexivity.
Defined.

(** ** Waits *)

Lemma load_entry_null tag w :
  MAX_TAG <= tag -> load_entry (get_packet_entry tag) w = NullDeref w.
Proof.
  intros Htag. unfold get_packet_entry.
  replace (tag >=? MAX_TAG) with true
    by (symmetry; rewrite Z.geb_leb; apply Z.leb_le; lia).
  reflexivity.
Qed.

(** X7 -- no wait checks what [get_packet_entry] returns: with a tag of
    512 or more each of them dereferences the null pointer at once,
    before any packet is read. *)
Theorem wait_with_tag_out_of_range_dereferences_null P fuel tag data_is_null w :
  MAX_TAG <= tag ->
  wait_for_cxl_mem_completion P (S fuel) tag w = NullDeref w /\
  wait_for_cxl_mem_mem_data P (S fuel) tag w = NullDeref w /\
  wait_for_cxl_io_completion P (S fuel) tag w = NullDeref w /\
  wait_for_cxl_io_completion_data P (S fuel) tag data_is_null w = NullDeref w /\
  wait_for_cxl_io_cfg_completion P (S fuel) tag data_is_null w = NullDeref w.
Proof.
  intros Htag.
  unfold wait_for_cxl_mem_completion, wait_for_cxl_mem_mem_data.
  cbn [wait_for_sized_packet wait_for_cxl_io_completion
       wait_for_cxl_io_completion_data wait_for_cxl_io_cfg_completion].
  unfold bind. rewrite load_entry_null by assumption.
  repeat split.
Qed.

Lemma wait_with_tag_out_of_range_dereferences_null_witness :
  wait_for_cxl_io_completion sample_platform 1 512 ndr_reply_world
  = NullDeref ndr_reply_world.
Proof.
  assert (Htag : MAX_TAG <= 512) by (vm_compute; congruence).
  apply (wait_with_tag_out_of_range_dereferences_null sample_platform 0 512
           true ndr_reply_world Htag).
Defined.

(** X8 -- a wait for tag 0 that finds the slot empty takes in one packet
    and, when that packet has the expected size, returns it: the bytes
    are those filed in slot 0, and the slot stays populated.  For the
    CXL.io completion wait a packet of any other size is the end of the
    process. *)
Theorem wait_returns_the_packet_received P fuel w w1 :
  0 < sizeof_system_header_packet_t P <= MAX_PAYLOAD_SIZE ->
  (0 < length (packet_entries w))%nat ->
  process_incoming_packets P w = Returned true w1 ->
  let entry := packet_entries w1 !!! 0%nat in
  0 < packet_size entry /\
  (packet_size entry = sizeof_base_sideband_packet_t P ->
   wait_for_base_sideband_packet P (S (S fuel)) w
   = Returned (Some (packet entry)) w1) /\
  (packet_size entry = sizeof_cxl_mem_s2m_ndr_packet_t P ->
   wait_for_cxl_mem_completion P (S (S fuel)) 0 w
   = Returned (Some (packet entry)) w1) /\
  (packet_size entry = sizeof_cxl_mem_s2m_drs_packet_t P ->
   wait_for_cxl_mem_mem_data P (S (S fuel)) 0 w
   = Returned (Some (packet entry)) w1) /\
  (packet_size entry = sizeof_cxl_io_completion_packet_t P ->
   wait_for_cxl_io_completion P (S (S fuel)) 0 w
   = Returned (Some (packet entry)) w1) /\
  (packet_size entry <> sizeof_cxl_io_completion_packet_t P ->
   wait_for_cxl_io_completion P (S (S fuel)) 0 w = AssertionFailed w1).
Proof.
  intros Hh Hlen Hrun entry.
  pose proof (process_incoming_packets_catalog P w) as Hc. rewrite Hrun in Hc.
  destruct Hc as (Hempty & b1 & b2 & Hfit & Hnew). cbn zeta in Hfit, Hnew.
  assert (Hsize : packet_size entry = declared_length P b1).
  { subst entry. rewrite Hnew, list_lookup_total_insert_eq by assumption.
    reflexivity. }
  assert (Hpos : 0 < packet_size entry).
  { rewrite Hsize.
    pose proof (size_t_range (payload_length_of P
      (take (Z.to_nat (sizeof_system_header_packet_t P)) b1))) as HL.
    fold (declared_length P b1) in HL.
    pose proof (received_length_nonzero P (declared_length P b1) Hh HL Hfit).
    lia. }
  assert (Htag : 0 <= 0 < MAX_TAG) by (unfold MAX_TAG; lia).
  assert (Hsized : forall expected, packet_size entry = expected ->
            wait_for_sized_packet P (S (S fuel)) expected 0 w
            = Returned (Some (packet entry)) w1).
  { intros expected Hexp. cbn [wait_for_sized_packet]. unfold bind at 1.
    rewrite load_entry_valid by assumption. change (Z.to_nat 0) with 0%nat.
    rewrite Hempty.
    destruct (Z.eqb_spec 0 expected) as [Hz|_]; [lia|].
    unfold bind at 1. rewrite Hrun. cbn [negb].
    unfold bind at 1. rewrite load_entry_valid by assumption.
    change (Z.to_nat 0) with 0%nat. fold entry.
    rewrite Hexp, Z.eqb_refl. reflexivity. }
  split; [exact Hpos|].
  split; [apply Hsized|]. split; [apply Hsized|]. split; [apply Hsized|].
  assert (Hio : wait_for_cxl_io_completion P (S (S fuel)) 0 w
                = (assert (packet_size entry
                             =? sizeof_cxl_io_completion_packet_t P) ;;;
                   ret (Some (packet entry))) w1).
  { cbn [wait_for_cxl_io_completion]. unfold bind at 1.
    rewrite load_entry_valid by assumption. change (Z.to_nat 0) with 0%nat.
    rewrite Hempty. change (0 >? 0) with false. cbv iota.
    unfold bind at 1. rewrite Hrun. cbn [negb].
    unfold bind at 1. rewrite load_entry_valid by assumption.
    change (Z.to_nat 0) with 0%nat. fold entry.
    replace (packet_size entry >? 0) with true
      by (symmetry; apply Z.gtb_lt; exact Hpos).
    reflexivity. }
  rewrite Hio. unfold bind, assert, ret. split.
  - intros ->. now rewrite Z.eqb_refl.
  - intros Hne.
    destruct (Z.eqb_spec (packet_size entry) (sizeof_cxl_io_completion_packet_t P));
      [contradiction | reflexivity].
Qed.

Lemma wait_returns_the_packet_received_witness :
  exists p w1,
    wait_for_cxl_mem_completion sample_platform 2 0 ndr_reply_world
    = Returned (Some p) w1 /\
    take 10 p = sample_packet 10 10 5 /\
    wait_for_cxl_io_completion sample_platform 2 0 ndr_reply_world
    = AssertionFailed w1.
Proof.
  assert (Hh : 0 < sizeof_system_header_packet_t sample_platform
               <= MAX_PAYLOAD_SIZE) by (vm_compute; split; congruence).
  assert (Hlen : (0 < length (packet_entries ndr_reply_world))%nat)
    by (vm_compute; lia).
  pose (w1 := default ndr_reply_world
                (final_world (process_incoming_packets sample_platform
                                ndr_reply_world))).
  assert (Hrun : process_incoming_packets sample_platform ndr_reply_world
                 = Returned true w1) by (vm_compute; reflexivity).
  destruct (wait_returns_the_packet_received sample_platform 0 ndr_reply_world
              w1 Hh Hlen Hrun) as (_ & _ & Hndr & _ & _ & Hio).
  exists (packet (packet_entries w1 !!! 0%nat)), w1.
  split; [apply Hndr; vm_compute; reflexivity|].
  split; [vm_compute; reflexivity|].
  apply Hio. vm_compute. discriminate.
Defined.

(** X10 -- [wait_for_cxl_io_cfg_completion] on an entry that is already
    there: a completion without data makes it store the all-ones value
    through [data] (or nothing when [data] is null); a completion with
    32 bits of data makes it store those 32 bits.  The entry is left as
    it is and no system call is made. *)
Theorem cfg_completion_value P fuel tag w :
  0 <= tag < MAX_TAG ->
  0 < packet_size (packet_entries w !!! Z.to_nat tag) ->
  let entry := packet_entries w !!! Z.to_nat tag in
  (packet_size entry = sizeof_cxl_io_completion_packet_t P ->
   wait_for_cxl_io_cfg_completion P (S fuel) tag false w
   = Returned (Some 0xFFFFFFFF) w /\
   wait_for_cxl_io_cfg_completion P (S fuel) tag true w = Returned None w) /\
  (packet_size entry = sizeof_cxl_io_completion_data_packet_32b_t P ->
   packet_size entry <> sizeof_cxl_io_completion_packet_t P ->
   wait_for_cxl_io_cfg_completion P (S fuel) tag false w
   = Returned (Some (completion_data_32b_of P (packet entry) mod 2 ^ 32)) w).
Proof.
  intros Htag Hpos entry.
  assert (Hgt : (packet_size entry >? 0) = true) by (apply Z.gtb_lt; exact Hpos).
  split.
  - intros Hcpl. split;
      cbn [wait_for_cxl_io_cfg_completion]; unfold bind at 1;
      rewrite load_entry_valid by assumption; fold entry; rewrite Hgt;
      unfold bind, assert, ret; rewrite Hcpl, Z.eqb_refl; reflexivity.
  - intros H32 Hne.
    cbn [wait_for_cxl_io_cfg_completion]. unfold bind at 1.
    rewrite load_entry_valid by assumption. fold entry. rewrite Hgt.
    unfold bind, assert, ret.
    destruct (Z.eqb_spec (packet_size entry) (sizeof_cxl_io_completion_packet_t P));
      [contradiction|].
    rewrite H32, Z.eqb_refl. reflexivity.
Qed.

Lemma cfg_completion_value_witness :
  wait_for_cxl_io_cfg_completion sample_platform 1 0 false
    completion_filed_world
  = Returned (Some 0xFFFFFFFF) completion_filed_world /\
  wait_for_cxl_io_cfg_completion sample_platform 1 0 true
    completion_filed_world
  = Returned None completion_filed_world.
Proof.
  assert (Htag : 0 <= 0 < MAX_TAG) by (vm_compute; split; congruence).
  refine (proj1 (cfg_completion_value sample_platform 0 0
                   completion_filed_world Htag _) _).
  - vm_compute. reflexivity.
  - vm_compute. reflexivity.
Defined.

(** X9 -- packets are only ever filed under tag 0, so a wait for any
    other tag whose slot is empty cannot succeed.  It calls
    [process_incoming_packets]: when that fails, nothing stored outside
    its buffer, the wait returns its failure value; when a packet is
    filed, the wait calls once more, and this second call cannot file
    another: it fails, and the wait returns its failure value, or it
    dies in the assertion of the store, and the wait with it.  So the
    wait takes in at most one packet. *)
Theorem wait_on_another_tag_never_succeeds P fuel tag data_is_null w :
  0 < sizeof_system_header_packet_t P <= MAX_PAYLOAD_SIZE ->
  0 < tag < MAX_TAG ->
  (0 < length (packet_entries w))%nat ->
  packet_size (packet_entries w !!! Z.to_nat tag) = 0 ->
  receives_and_gives_up P None tag w
    (wait_for_cxl_io_completion P (S (S fuel)) tag w) /\
  receives_and_gives_up P (0, None) tag w
    (wait_for_cxl_io_completion_data P (S (S fuel)) tag data_is_null w) /\
  receives_and_gives_up P None tag w
    (wait_for_cxl_io_cfg_completion P (S (S fuel)) tag data_is_null w) /\
  (sizeof_cxl_mem_s2m_ndr_packet_t P <> 0 ->
   receives_and_gives_up P None tag w
     (wait_for_cxl_mem_completion P (S (S fuel)) tag w)) /\
  (sizeof_cxl_mem_s2m_drs_packet_t P <> 0 ->
   receives_and_gives_up P None tag w
     (wait_for_cxl_mem_mem_data P (S (S fuel)) tag w)).
Proof.
  intros Hh Htag Hlen Hempty.
  assert (Htag' : 0 <= tag < MAX_TAG) by lia.
  assert (Hzero : tag = 0 -> packet_size (packet_entries w !!! 0%nat) <> 0)
    by lia.
  assert (Hsized : forall expected, expected <> 0 ->
            receives_and_gives_up P None tag w
              (wait_for_sized_packet P (S (S fuel)) expected tag w)).
  { intros expected Hexp.
    apply (wait_receives_and_gives_up P None
             (fun f => wait_for_sized_packet P f expected tag)
             (fun e => packet_size e <> expected)); try assumption.
    - intros f w' Hw'. now apply wait_for_sized_packet_round.
    - rewrite Hempty. congruence. }
  split; [|split; [|split; [|split]]].
  - apply (wait_receives_and_gives_up P None
             (fun f => wait_for_cxl_io_completion P f tag)
             (fun e => packet_size e <= 0)); try assumption; [|lia].
    intros f w' Hw'. now apply wait_for_cxl_io_completion_round.
  - apply (wait_receives_and_gives_up P (0, None)
             (fun f => wait_for_cxl_io_completion_data P f tag data_is_null)
             (fun e => packet_size e <= 0)); try assumption; [|lia].
    intros f w' Hw'. now apply wait_for_cxl_io_completion_data_round.
  - apply (wait_receives_and_gives_up P None
             (fun f => wait_for_cxl_io_cfg_completion P f tag data_is_null)
             (fun e => packet_size e <= 0)); try assumption; [|lia].
    intros f w' Hw'. now apply wait_for_cxl_io_cfg_completion_round.
  - apply Hsized.
  - apply Hsized.
Qed.

Lemma wait_on_another_tag_never_succeeds_witness :
  exists w1 w2,
    process_incoming_packets sample_platform ndr_reply_world
    = Returned true w1 /\
    packet_size (packet_entries w1 !!! 0%nat) = 10 /\
    process_incoming_packets sample_platform w1 = Returned false w2 /\
    wait_for_cxl_mem_completion sample_platform 2 1 ndr_reply_world
    = Returned None w2.
Proof.
  assert (Hh : 0 < sizeof_system_header_packet_t sample_platform
               <= MAX_PAYLOAD_SIZE) by (vm_compute; split; congruence).
  assert (Htag : 0 < 1 < MAX_TAG) by (vm_compute; split; congruence).
  assert (Hlen : (0 < length (packet_entries ndr_reply_world))%nat)
    by (vm_compute; lia).
  assert (Hempty : packet_size (packet_entries ndr_reply_world !!! Z.to_nat 1) = 0)
    by (vm_compute; reflexivity).
  destruct (wait_on_another_tag_never_succeeds sample_platform 0 1 true
              ndr_reply_world Hh Htag Hlen Hempty) as (_ & _ & _ & Hndr & _).
  assert (Hsz : sizeof_cxl_mem_s2m_ndr_packet_t sample_platform <> 0)
    by (vm_compute; congruence).
  specialize (Hndr Hsz).
  pose (w1 := default ndr_reply_world
                (final_world (process_incoming_packets sample_platform
                                ndr_reply_world))).
  assert (Hrun1 : process_incoming_packets sample_platform ndr_reply_world
                  = Returned true w1) by (vm_compute; reflexivity).
  pose (w2 := default w1
                (final_world (process_incoming_packets sample_platform w1))).
  assert (Hrun2 : process_incoming_packets sample_platform w1
                  = Returned false w2) by (vm_compute; reflexivity).
  assert (Hstray : stray w2 = stray w1) by (vm_compute; reflexivity).
  unfold receives_and_gives_up, ends_with_receive in Hndr.
  rewrite Hrun1 in Hndr. destruct Hndr as (_ & Hndr).
  rewrite Hrun2 in Hndr.
  exists w1, w2. split; [exact Hrun1|].
  split; [vm_compute; reflexivity|]. split; [exact Hrun2|].
  exact (Hndr Hstray).
Defined.

(** X11 -- what [wait_for_cxl_io_completion_data] returns.  With a
    populated entry under [tag] it returns at once, the world as it
    was: the length of the entry and the data read by the 32-bit layout
    when the length is that of a 32-bit data completion, by the 64-bit
    layout when it is that of a 64-bit one; any other length ends in the
    assertion.  The store through [data] is not guarded: with
    [data == NULL] and an accepted length it dereferences the null
    pointer.  With slot 0 empty, the wait for tag 0 receives: when the
    receive fails, nothing stored outside its buffer, the wait returns
    0; when a packet is filed, the wait treats it as above. *)
Theorem completion_data_result P fuel tag w :
  0 <= tag < MAX_TAG ->
  (0 < packet_size (packet_entries w !!! Z.to_nat tag) ->
   reads_completion_data P (packet_entries w !!! Z.to_nat tag)
     (fun data_is_null =>
        wait_for_cxl_io_completion_data P (S fuel) tag data_is_null w) w) /\
  (tag = 0 ->
   packet_size (packet_entries w !!! 0%nat) = 0 ->
   0 < sizeof_system_header_packet_t P <= MAX_PAYLOAD_SIZE ->
   (0 < length (packet_entries w))%nat ->
   (forall w1 data_is_null,
      process_incoming_packets P w = Returned false w1 ->
      stray w1 = stray w ->
      wait_for_cxl_io_completion_data P (S fuel) 0 data_is_null w
      = Returned (0, None) w1) /\
   (forall w1,
      process_incoming_packets P w = Returned true w1 ->
      0 < packet_size (packet_entries w1 !!! 0%nat) /\
      reads_completion_data P (packet_entries w1 !!! 0%nat)
        (fun data_is_null =>
           wait_for_cxl_io_completion_data P (S (S fuel)) 0 data_is_null w)
        w1)).
Proof.
  intros Htag.
  assert (Hthere : forall f t w', 0 <= t < MAX_TAG ->
            0 < packet_size (packet_entries w' !!! Z.to_nat t) ->
            forall run,
              (forall b, run b = wait_for_cxl_io_completion_data P (S f) t b w') ->
              reads_completion_data P (packet_entries w' !!! Z.to_nat t) run w').
  { intros f t w' Ht Hpos run Hrun.
    set (entry := packet_entries w' !!! Z.to_nat t) in *.
    assert (Hgt : (packet_size entry >? 0) = true)
      by (apply Z.gtb_lt; exact Hpos).
    assert (Hstep : forall b,
              run b
              = (assert ((packet_size entry
                            =? sizeof_cxl_io_completion_data_packet_32b_t P)
                         || (packet_size entry
                               =? sizeof_cxl_io_completion_data_packet_64b_t P)) ;;;
                 (if b then (fun w => NullDeref w) else ret tt) ;;;
                 if packet_size entry
                      =? sizeof_cxl_io_completion_data_packet_32b_t P
                 then ret (packet_size entry,
                           Some (completion_data_32b_of P (packet entry)))
                 else ret (packet_size entry,
                           Some (completion_data_64b_of P (packet entry)))) w').
    { intros b. rewrite Hrun. cbn [wait_for_cxl_io_completion_data].
      unfold bind at 1. rewrite load_entry_valid by assumption.
      fold entry. rewrite Hgt. reflexivity. }
    unfold reads_completion_data. cbn zeta.
    split; [|split; [|split]].
    - intros H32. rewrite Hstep. unfold bind, assert, ret.
      destruct (Z.eqb_spec (packet_size entry)
                  (sizeof_cxl_io_completion_data_packet_32b_t P));
        [reflexivity | contradiction].
    - intros H64 H32. rewrite Hstep. unfold bind, assert, ret.
      destruct (Z.eqb_spec (packet_size entry)
                  (sizeof_cxl_io_completion_data_packet_32b_t P));
        [contradiction|].
      destruct (Z.eqb_spec (packet_size entry)
                  (sizeof_cxl_io_completion_data_packet_64b_t P));
        [reflexivity | contradiction].
    - intros Hacc. rewrite Hstep. unfold bind, assert, ret.
      destruct (Z.eqb_spec (packet_size entry)
                  (sizeof_cxl_io_completion_data_packet_32b_t P));
        [reflexivity|].
      destruct (Z.eqb_spec (packet_size entry)
                  (sizeof_cxl_io_completion_data_packet_64b_t P));
        [reflexivity | tauto].
    - intros H32 H64 b. rewrite Hstep. unfold bind, assert, ret.
      destruct (Z.eqb_spec (packet_size entry)
                  (sizeof_cxl_io_completion_data_packet_32b_t P));
        [contradiction|].
      destruct (Z.eqb_spec (packet_size entry)
                  (sizeof_cxl_io_completion_data_packet_64b_t P));
        [contradiction | reflexivity]. }
  split.
  - intros Hpos. apply (Hthere fuel tag w Htag Hpos). reflexivity.
  - intros -> Hempty Hh Hlen.
    assert (Hle : packet_size (packet_entries w !!! Z.to_nat 0) <= 0)
      by (change (Z.to_nat 0) with 0%nat; lia).
    split.
    + intros w1 b Hrun _.
      rewrite wait_for_cxl_io_completion_data_round by assumption.
      unfold one_round. rewrite Hrun. reflexivity.
    + intros w1 Hrun.
      destruct (received_packet_front P w w1 Hh Hrun)
        as (bytes & _ & _ & Hrange & _ & Hnew & _).
      assert (Hpos : 0 < packet_size (packet_entries w1 !!! Z.to_nat 0)).
      { change (Z.to_nat 0) with 0%nat.
        rewrite Hnew, list_lookup_total_insert_eq by assumption.
        cbn [packet_size]. lia. }
      split; [exact Hpos|].
      apply (Hthere fuel 0 w1 Htag Hpos).
      intros b. rewrite wait_for_cxl_io_completion_data_round by assumption.
      unfold one_round. rewrite Hrun. reflexivity.
Qed.

Lemma completion_data_result_witness :
  exists w1,
    process_incoming_packets sample_platform data_completion_world
    = Returned true w1 /\
    wait_for_cxl_io_completion_data sample_platform 2 0 false
      data_completion_world
    = Returned (20, Some 0x12345678) w1 /\
    wait_for_cxl_io_completion_data sample_platform 2 0 true
      data_completion_world
    = NullDeref w1.
Proof.
  assert (Htag : 0 <= 0 < MAX_TAG) by (vm_compute; split; congruence).
  assert (Hh : 0 < sizeof_system_header_packet_t sample_platform
               <= MAX_PAYLOAD_SIZE) by (vm_compute; split; congruence).
  assert (Hlen : (0 < length (packet_entries data_completion_world))%nat)
    by (vm_compute; lia).
  assert (Hempty : packet_size (packet_entries data_completion_world !!! 0%nat)
                   = 0) by (vm_compute; reflexivity).
  destruct (completion_data_result sample_platform 0 0 data_completion_world
              Htag) as (_ & Hrecv).
  destruct (Hrecv eq_refl Hempty Hh Hlen) as (_ & Hfiled).
  pose (w1 := default data_completion_world
                (final_world (process_incoming_packets sample_platform
                                data_completion_world))).
  assert (Hrun : process_incoming_packets sample_platform data_completion_world
                 = Returned true w1) by (vm_compute; reflexivity).
  destruct (Hfiled w1 Hrun) as (_ & H32 & _ & Hnull & _).
  assert (Hsize : packet_size (packet_entries w1 !!! 0%nat)
                  = sizeof_cxl_io_completion_data_packet_32b_t sample_platform)
    by (vm_compute; reflexivity).
  assert (Hdata : completion_data_32b_of sample_platform
                    (packet (packet_entries w1 !!! 0%nat)) = 0x12345678)
    by (vm_compute; reflexivity).
  exists w1. split; [exact Hrun|]. split.
  - rewrite (H32 Hsize), Hdata, Hsize. reflexivity.
  - apply Hnull. left. exact Hsize.
Defined.

(** ** Senders *)




(** X13 -- CXL.mem requests address 64-byte units: the read request
    carries [MEM_RD] and [hpa / 64], which fits 58 bits, and two
    addresses in the same unit give the same read and the same write
    request. *)
Theorem mem_requests_address_whole_units P hpa w :
  0 <= hpa < 2 ^ 64 ->
  sends (send_cxl_mem_mem_read P hpa w).2 w
    (cxl_mem_m2s_req_packet
       {| payload_type := CXL_MEM;
          payload_length := sizeof_cxl_mem_m2s_req_packet_t P |}
       M2S_REQ {| mem_opcode := MEM_RD; addr := hpa / 64 |})
    (sizeof_cxl_mem_m2s_req_packet_t P) /\
  0 <= hpa / 64 < 2 ^ 58 /\
  (forall hpa', hpa' / 64 = hpa / 64 ->
     send_cxl_mem_mem_read P hpa' w = send_cxl_mem_mem_read P hpa w) /\
  (forall hpa' data, hpa' / 64 = hpa / 64 ->
     send_cxl_mem_mem_write P hpa' data w = send_cxl_mem_mem_write P hpa data w).
Proof.
  intros Hhpa.
  assert (Hshift : forall x, Z.shiftr x 6 = x / 64)
    by (intros x; apply (Z.shiftr_div_pow2 x 6); lia).
  split; [|split; [|split]].
  - unfold send_cxl_mem_mem_read. cbn [snd]. cbv zeta. rewrite Hshift.
    apply write_then_report.
  - split.
    + apply Z.div_pos; lia.
    + apply Z.div_lt_upper_bound; [lia|].
      change (64 * 2 ^ 58) with (2 ^ 64). lia.
  - intros hpa' Hsame. unfold send_cxl_mem_mem_read.
    now rewrite !Hshift, Hsame.
  - intros hpa' data Hsame. unfold send_cxl_mem_mem_write.
    now rewrite !Hshift, Hsame.
Qed.

Lemma mem_requests_address_whole_units_witness :
  send_cxl_mem_mem_read sample_platform 0x7F (idle_world 1)
  = send_cxl_mem_mem_read sample_platform 0x40 (idle_world 1).
Proof.
  assert (Hhpa : 0 <= 0x40 < 2 ^ 64) by (vm_compute; split; congruence).
  destruct (mem_requests_address_whole_units sample_platform 0x40
              (idle_world 1) Hhpa) as (_ & _ & Hrd & _).
  apply Hrd. reflexivity.
Defined.

(** ** Dword counts *)

Lemma land_clear_low_two x :
  0 <= x < 2 ^ 32 -> Z.land x (u32 (Z.lnot 3)) = 4 * (x / 4).
Proof.
  intros Hx.
  change (u32 (Z.lnot 3)) with (Z.shiftl (Z.ones 30) 2).
  replace (4 * (x / 4)) with (Z.shiftl (Z.shiftr x 2) 2).
  2:{ rewrite Z.shiftl_mul_pow2, Z.shiftr_div_pow2 by lia.
      change (2 ^ 2) with 4. lia. }
  apply Z.bits_inj'. intros i Hi.
  rewrite Z.land_spec, !Z.shiftl_spec by lia.
  destruct (Z.ltb_spec i 2) as [Hlow|Hhigh].
  - rewrite !(Z.testbit_neg_r _ (i - 2)) by lia. apply andb_false_r.
  - rewrite Z.shiftr_spec by lia. replace (i - 2 + 2) with i by lia.
    rewrite Z.testbit_ones_nonneg by lia.
    destruct (Z.ltb_spec (i - 2) 30) as [|Hbig]; [apply andb_true_r|].
    rewrite andb_false_r. symmetry.
    rewrite <- (Z.mod_small x (2 ^ 32)) by lia.
    apply Z.mod_pow2_bits_high. lia.
Qed.

Lemma round_up_below_wrap number :
  0 <= number <= 2 ^ 32 - 4 ->
  round_up_to_nearest_dword number = 4 * ((number + 3) / 4).
Proof.
  intros Hn. unfold round_up_to_nearest_dword. cbv zeta.
  replace (number + 4 - 1) with (number + 3) by lia.
  change (4 - 1) with 3.
  assert (Hu : u32 (number + 3) = number + 3)
    by (unfold u32, wrap; apply Z.mod_small; lia).
  rewrite Hu. apply land_clear_low_two. lia.
Qed.

(** X14 -- [round_up_to_nearest_dword] on a 32-bit number: up to
    [2 ^ 32 - 4] it is the least multiple of 4 that is not below the
    number; above that the sum wraps and the result is 0. *)
Theorem round_up_to_nearest_dword_rounds number :
  0 <= number < 2 ^ 32 ->
  let r := round_up_to_nearest_dword number in
  (number <= 2 ^ 32 - 4 ->
   r mod 4 = 0 /\ number <= r < number + 4 /\
   forall m, m mod 4 = 0 -> number <= m -> r <= m) /\
  (2 ^ 32 - 4 < number -> r = 0).
Proof.
  intros Hn r. subst r. split.
  - intros Hfit. rewrite round_up_below_wrap by lia.
    pose proof (Z.div_mod (number + 3) 4 ltac:(lia)) as Hdm.
    pose proof (Z.mod_pos_bound (number + 3) 4 ltac:(lia)) as Hm.
    split; [rewrite Z.mul_comm; apply Z.mod_mul; lia|].
    split; [lia|].
    intros m Hm4 Hle.
    pose proof (Z.div_mod m 4 ltac:(lia)) as Hmd. rewrite Hm4 in Hmd.
    assert ((number + 3) / 4 <= m / 4); [|lia].
    apply Z.div_le_lower_bound; lia.
  - intros Hwrap. unfold round_up_to_nearest_dword. cbv zeta.
    replace (number + 4 - 1) with (number + 3) by lia.
    change (4 - 1) with 3.
    assert (Hu : u32 (number + 3) = number + 3 - 2 ^ 32).
    { unfold u32, wrap. symmetry.
      apply Z.mod_unique_pos with (q := 1); lia. }
    rewrite land_clear_low_two by (rewrite Hu; lia).
    rewrite Hu, Z.div_small by lia. reflexivity.
Qed.

Lemma round_up_to_nearest_dword_rounds_witness :
  (round_up_to_nearest_dword 5 mod 4 = 0 /\
   5 <= round_up_to_nearest_dword 5 < 5 + 4) /\
  round_up_to_nearest_dword 0xFFFFFFFD = 0.
Proof.
  assert (H5 : 0 <= 5 < 2 ^ 32) by (vm_compute; split; congruence).
  assert (Hbig : 0 <= 0xFFFFFFFD < 2 ^ 32) by (vm_compute; split; congruence).
  destruct (round_up_to_nearest_dword_rounds 5 H5) as (Hlow5 & _).
  destruct (round_up_to_nearest_dword_rounds 0xFFFFFFFD Hbig) as (_ & Hhigh).
  split.
  - destruct Hlow5 as (Hm & Hr & _); [vm_compute; congruence|]. split; assumption.
  - apply Hhigh. vm_compute. reflexivity.
Defined.

(** X15 -- a CXL.io memory read of a size that is not a multiple of 4
    dies in the assertion before anything is written.  For a multiple of
    4 below 4096 the header carries the dword count [size / 4] split
    into its upper 2 and lower 8 bits, and the format is the 32-bit one
    for size 4 and the 64-bit one for every other size. *)
Theorem mem_read_request_length P hpa size w :
  (Z.rem size 4 <> 0 ->
   (send_cxl_io_mem_read P hpa size w).2 = AssertionFailed w) /\
  (0 <= size < 4096 -> Z.rem size 4 = 0 ->
   exists upper lower,
     sends (send_cxl_io_mem_read P hpa size w).2 w
       (cxl_io_mem_rd_packet
          {| payload_type := CXL_IO;
             payload_length := sizeof_cxl_io_mem_rd_packet_t P |}
          {| fmt_type := if size =? 4 then MRD_32B else MRD_64B;
             length_upper := upper; length_lower := lower |}
          (mreq_header_of P hpa 0))
       (sizeof_cxl_io_mem_rd_packet_t P) /\
     0 <= upper < 4 /\ 0 <= lower < 256 /\
     256 * upper + lower = size / 4).
Proof.
  split.
  - intros Hrem. unfold send_cxl_io_mem_read. cbn [snd].
    unfold bind at 1, assert at 1.
    destruct (Z.eqb_spec (Z.rem size 4) 0); [contradiction | reflexivity].
  - intros Hsize Hrem.
    assert (Hmod : size mod 4 = 0) by (rewrite <- Z.rem_mod_nonneg; lia).
    assert (Hdiv : size = 4 * (size / 4))
      by (pose proof (Z.div_mod size 4 ltac:(lia)); lia).
    assert (Hlen : u16 (round_up_to_nearest_dword (u32 size) / 4) = size / 4).
    { assert (Hu : u32 size = size)
        by (unfold u32, wrap; apply Z.mod_small; lia).
      rewrite Hu.
      rewrite round_up_below_wrap by lia.
      replace ((size + 3) / 4) with (size / 4).
      2:{ apply (Z.div_unique (size + 3) 4 (size / 4) 3); lia. }
      rewrite Z.mul_comm, Z.div_mul by lia.
      unfold u16, wrap. apply Z.mod_small.
      split; [apply Z.div_pos; lia | apply Z.div_lt_upper_bound; lia]. }
    assert (Hq : 0 <= size / 4 < 1024)
      by (split; [apply Z.div_pos; lia | apply Z.div_lt_upper_bound; lia]).
    exists (EXTRACT_UPPER_2 (size / 4)), (EXTRACT_LOWER_8 (size / 4)).
    split.
    { unfold send_cxl_io_mem_read. cbn [snd]. cbv zeta.
      unfold bind at 1, assert at 1. rewrite Hrem. cbn [Z.eqb].
      rewrite Hlen. apply write_then_report. }
    unfold EXTRACT_UPPER_2, EXTRACT_LOWER_8, extract16.
    rewrite Z.shiftr_0_r, !Z.land_ones, Z.shiftr_div_pow2 by lia.
    change (2 ^ 2) with 4. change (2 ^ 8) with 256.
    assert (Hup : 0 <= size / 4 / 256 < 4)
      by (split; [apply Z.div_pos; lia | apply Z.div_lt_upper_bound; lia]).
    rewrite (Z.mod_small (size / 4 / 256) 4) by lia.
    pose proof (Z.mod_pos_bound (size / 4) 256 ltac:(lia)).
    pose proof (Z.div_mod (size / 4) 256 ltac:(lia)).
    repeat split; lia.
Qed.

Lemma mem_read_request_length_witness :
  (send_cxl_io_mem_read sample_platform 0x1000 6 (idle_world 1)).2
  = AssertionFailed (idle_world 1) /\
  sends (send_cxl_io_mem_read sample_platform 0x1000 8 (idle_world 1)).2
    (idle_world 1)
    (cxl_io_mem_rd_packet
       {| payload_type := CXL_IO; payload_length := 20 |}
       {| fmt_type := MRD_64B; length_upper := 0; length_lower := 2 |}
       (mreq_header_of sample_platform 0x1000 0))
    20.
Proof.
  destruct (mem_read_request_length sample_platform 0x1000 6 (idle_world 1))
    as (Hbad & _).
  destruct (mem_read_request_length sample_platform 0x1000 8 (idle_world 1))
    as (_ & Hgood).
  split.
  - apply Hbad. vm_compute. congruence.
  - destruct Hgood as (upper & lower & Hsend & Hu & Hl & Hsum);
      [lia | reflexivity |].
    change (8 / 4) with 2 in Hsum.
    assert (upper = 0) by lia. assert (lower = 2) by lia. subst.
    exact Hsend.
Defined.

(** ** Validation of configuration requests *)

Lemma byte_enable_is_a_nibble n off :
  0 <= off -> off + Z.of_nat n <= 4 ->
  0 <= byte_enable_loop n 0 off < 16.
Proof.
  intros Hoff Hfit.
  assert (Hmod : byte_enable_loop n 0 off = byte_enable_loop n 0 off mod 2 ^ 4).
  { apply Z.bits_inj'. intros i Hi.
    rewrite Z.testbit_mod_pow2 by lia.
    rewrite byte_enable_loop_bits by (unfold is_byte; lia).
    rewrite Z.bits_0. cbn [orb].
    destruct (Z.ltb_spec i 4); [reflexivity|]. cbn [andb].
    decide_comparisons. }
  rewrite Hmod. apply Z.mod_pos_bound. lia.
Qed.

(** X16 -- [fill_cxl_io_cfg_req_packet] accepts a request exactly when
    the offset lies within the 4096-byte configuration space and the
    access ends within its dword.  A refused request leaves the header
    as it was; an accepted one gets a first-dword byte enable of four
    bits, which is 0 only for an access of size 0, and a last-dword byte
    enable of 0. *)
Theorem cfg_request_is_validated P header id cfg_addr size req_id tag :
  0 <= cfg_addr -> 0 <= size < 256 ->
  let r := fill_cxl_io_cfg_req_packet P header id cfg_addr size req_id tag in
  (r.1 = true <-> cfg_addr <= 0xFFF /\ Z.land cfg_addr 0x3 + size <= 4) /\
  (r.1 = false -> r.2 = header) /\
  (r.1 = true ->
   0 <= first_dw_be r.2 < 16 /\ last_dw_be r.2 = 0 /\
   (first_dw_be r.2 = 0 <-> size = 0)).
Proof.
  intros Haddr Hsize r. subst r. unfold fill_cxl_io_cfg_req_packet.
  pose proof (low_two_bits_range cfg_addr) as Hlo.
  assert (Hlo8 : u8 (Z.land cfg_addr 3) = Z.land cfg_addr 3)
    by (unfold u8, wrap; apply Z.mod_small; lia).
  rewrite Hlo8.
  destruct (Z.gtb_spec cfg_addr 4095) as [Hbig|Hin]; cbn [fst snd].
  { split; [split; [discriminate | lia]|]. split; [reflexivity | discriminate]. }
  destruct (Z.gtb_spec (Z.land cfg_addr 3 + size) 4) as [Hcross|Hfit];
    cbn [fst snd first_dw_be last_dw_be].
  { split; [split; [discriminate | lia]|]. split; [reflexivity | discriminate]. }
  split; [split; [lia | reflexivity]|]. split; [discriminate|]. intros _.
  split; [apply byte_enable_is_a_nibble; lia|]. split; [reflexivity|].
  split.
  - intros Hzero.
    destruct (Z.eq_dec size 0) as [|Hne]; [assumption|]. exfalso.
    assert (Hbit : Z.testbit (byte_enable_loop (Z.to_nat size) 0
                                (Z.land cfg_addr 3)) (Z.land cfg_addr 3) = true).
    { rewrite byte_enable_loop_bits by (unfold is_byte; lia).
      rewrite Z.bits_0. cbn [orb]. decide_comparisons. }
    rewrite Hzero, Z.bits_0 in Hbit. discriminate Hbit.
  - intros ->. reflexivity.
Qed.

Lemma cfg_request_is_validated_witness :
  (fill_cxl_io_cfg_req_packet sample_platform zero_cfg_req_header 0 0xFFE 2 0 0).1
  = true /\
  (fill_cxl_io_cfg_req_packet sample_platform zero_cfg_req_header 0 0xFFF 2 0 0).2
  = zero_cfg_req_header.
Proof.
  assert (Ha : 0 <= 0xFFE) by lia. assert (Hb : 0 <= 0xFFF) by lia.
  assert (Hs : 0 <= 2 < 256) by lia.
  destruct (cfg_request_is_validated sample_platform zero_cfg_req_header 0
              0xFFE 2 0 0 Ha Hs) as (Hiff & _).
  destruct (cfg_request_is_validated sample_platform zero_cfg_req_header 0
              0xFFF 2 0 0 Hb Hs) as (_ & Hkeep & _).
  split.
  - apply Hiff. vm_compute. split; congruence.
  - apply Hkeep. vm_compute. reflexivity.
Defined.

(** X17 -- the senders of configuration requests pass their [int] size
    to a [uint8_t] parameter: only the size modulo 256 is validated and
    encoded, so an access of 258 bytes goes out as one of 2. *)
Theorem config_size_is_taken_modulo_256 P bdf offset val size k type0 w :
  send_cxl_io_config_space_read P bdf offset (size + 256 * k) type0 w
  = send_cxl_io_config_space_read P bdf offset size type0 w /\
  send_cxl_io_config_space_write P bdf offset val (size + 256 * k) type0 w
  = send_cxl_io_config_space_write P bdf offset val size type0 w /\
  sends (send_cxl_io_config_space_read P (u16 bdf) 0 258 type0 w).2 w
    (cxl_io_cfg_rd_packet
       {| payload_type := CXL_IO;
          payload_length := sizeof_cxl_io_cfg_rd_packet_t P |}
       {| fmt_type := if type0 then CFG_RD0 else CFG_RD1;
          length_upper := 0; length_lower := 1 |}
       {| cfg_req_id := htons P 0; cfg_tag := 0; first_dw_be := 3;
          last_dw_be := 0; dest_id := htons P (u16 bdf);
          ext_reg_num := 0; reg_num := 0 |})
    (sizeof_cxl_io_cfg_rd_packet_t P).
Proof.
  assert (Hu : u8 (size + 256 * k) = u8 size).
  { unfold u8, wrap. change (2 ^ 8) with 256.
    rewrite Z.mul_comm. apply Z.mod_add. lia. }
  split; [|split].
  - unfold send_cxl_io_config_space_read. now rewrite Hu.
  - unfold send_cxl_io_config_space_write. now rewrite Hu.
  - unfold send_cxl_io_config_space_read. cbn [snd]. cbv zeta.
    change (u8 258) with 2. change (u8 (get_next_tag tt)) with 0.
    unfold fill_cxl_io_cfg_req_packet.
    change (0 >? 4095) with false. change (u8 (Z.land 0 3)) with 0.
    change (0 + 2 >? 4) with false. cbv iota.
    change (byte_enable_loop (Z.to_nat 2) 0 0) with 3.
    apply write_then_report.
Qed.
